(** * state_estimator.py: the coordinator of the pidrone state estimators

    A shallow embedding of [src/state_estimator.py]: the [StateEstimator]
    class (command composition, subprocess launch, the two message
    callbacks) and [main] with its [try]/[except]/[finally].

    - float64 message fields are Rocq's binary64 floats; they are only
      copied, never computed with.
    - [self] is a record passed explicitly; an attribute that the code
      assigns only on some paths ([ema_state_msg]) is an [option].
    - Calls that leave the interpreter (rospy, subprocess, print) are
      recorded in a trace; what they return or raise is read from an
      environment [env].
    - The callbacks run while [rospy.spin] blocks; each is a step from
      one [self] to the next. A step that raises has no next [self]: the
      only such step is a callback that finds no [ema_state_msg], which
      cannot happen once the estimators have been started
      ([wired_after_start]). *)

From Stdlib Require Import Floats ZArith Ascii.
From stdpp Require Import base option list strings gmap pretty.

Local Open Scope Z_scope.

(** ** Messages *)

(** Modelled from the spec: the message classes ([pidrone_pkg.msg.State]
    and the geometry messages it nests) are generated code that is not
    under src/. The field paths are the ones the source reads and writes;
    orientation is a quaternion, angular velocity a 3-vector, and each
    covariance block a flattened sequence (spec, section 3). *)
Module Time.
Record t := mk { secs : Z; nsecs : Z }.
End Time.

Module Header.
Record t := mk { seq : Z; stamp : Time.t; frame_id : string }.
Definition set_stamp (v : Time.t) (h : t) : t := mk (seq h) v (frame_id h).
End Header.

Module Point.
Record t := mk { x : float; y : float; z : float }.
Definition set_x (v : float) (p : t) : t := mk v (y p) (z p).
Definition set_y (v : float) (p : t) : t := mk (x p) v (z p).
Definition set_z (v : float) (p : t) : t := mk (x p) (y p) v.
End Point.

Module Vector3.
Record t := mk { x : float; y : float; z : float }.
Definition set_x (v : float) (p : t) : t := mk v (y p) (z p).
Definition set_y (v : float) (p : t) : t := mk (x p) v (z p).
Definition set_z (v : float) (p : t) : t := mk (x p) (y p) v.
End Vector3.

Module Quaternion.
Record t := mk { x : float; y : float; z : float; w : float }.
End Quaternion.

Module Pose.
Record t := mk { position : Point.t; orientation : Quaternion.t }.
Definition set_position (v : Point.t) (p : t) : t := mk v (orientation p).
Definition set_orientation (v : Quaternion.t) (p : t) : t := mk (position p) v.
End Pose.

Module Twist.
Record t := mk { linear : Vector3.t; angular : Vector3.t }.
Definition set_linear (v : Vector3.t) (p : t) : t := mk v (angular p).
Definition set_angular (v : Vector3.t) (p : t) : t := mk (linear p) v.
End Twist.

Module PoseWithCovariance.
Record t := mk { pose : Pose.t; covariance : list float }.
Definition set_pose (v : Pose.t) (p : t) : t := mk v (covariance p).
Definition set_covariance (v : list float) (p : t) : t := mk (pose p) v.
End PoseWithCovariance.

Module TwistWithCovariance.
Record t := mk { twist : Twist.t; covariance : list float }.
Definition set_twist (v : Twist.t) (p : t) : t := mk v (covariance p).
Definition set_covariance (v : list float) (p : t) : t := mk (twist p) v.
End TwistWithCovariance.

Module State.
Record t := mk {
  header : Header.t;
  pose_with_covariance : PoseWithCovariance.t;
  twist_with_covariance : TwistWithCovariance.t }.

Definition set_header (v : Header.t) (s : t) : t :=
  mk v (pose_with_covariance s) (twist_with_covariance s).
Definition set_pose_with_covariance (v : PoseWithCovariance.t) (s : t) : t :=
  mk (header s) v (twist_with_covariance s).
Definition set_twist_with_covariance (v : TwistWithCovariance.t) (s : t) : t :=
  mk (header s) (pose_with_covariance s) v.

(** Read paths, named after the local variables of [state_callback]. *)
Definition position (s : t) : Point.t :=
  Pose.position (PoseWithCovariance.pose (pose_with_covariance s)).
Definition linear (s : t) : Vector3.t :=
  Twist.linear (TwistWithCovariance.twist (twist_with_covariance s)).
Definition x (s : t) : float := Point.x (position s).
Definition y (s : t) : float := Point.y (position s).
Definition z (s : t) : float := Point.z (position s).
Definition vel_x (s : t) : float := Vector3.x (linear s).
Definition vel_y (s : t) : float := Vector3.y (linear s).
Definition vel_z (s : t) : float := Vector3.z (linear s).
Definition orientation (s : t) : Quaternion.t :=
  Pose.orientation (PoseWithCovariance.pose (pose_with_covariance s)).
Definition vel_angular (s : t) : Vector3.t :=
  Twist.angular (TwistWithCovariance.twist (twist_with_covariance s)).
Definition pose_covariance (s : t) : list float :=
  PoseWithCovariance.covariance (pose_with_covariance s).
Definition twist_covariance (s : t) : list float :=
  TwistWithCovariance.covariance (twist_with_covariance s).
Definition stamp (s : t) : Time.t := Header.stamp (header s).

(** Write paths: [s.a.b.c = v] rebuilds the records along the path. *)
Definition on_pose (f : Pose.t → Pose.t) (s : t) : t :=
  set_pose_with_covariance
    (PoseWithCovariance.set_pose
       (f (PoseWithCovariance.pose (pose_with_covariance s)))
       (pose_with_covariance s)) s.
Definition on_twist (f : Twist.t → Twist.t) (s : t) : t :=
  set_twist_with_covariance
    (TwistWithCovariance.set_twist
       (f (TwistWithCovariance.twist (twist_with_covariance s)))
       (twist_with_covariance s)) s.
Definition on_position (f : Point.t → Point.t) : t → t :=
  on_pose (λ p, Pose.set_position (f (Pose.position p)) p).
Definition on_linear (f : Vector3.t → Vector3.t) : t → t :=
  on_twist (λ p, Twist.set_linear (f (Twist.linear p)) p).

Definition set_stamp (v : Time.t) (s : t) : t :=
  set_header (Header.set_stamp v (header s)) s.
Definition set_x (v : float) : t → t := on_position (Point.set_x v).
Definition set_y (v : float) : t → t := on_position (Point.set_y v).
Definition set_z (v : float) : t → t := on_position (Point.set_z v).
Definition set_orientation (v : Quaternion.t) : t → t :=
  on_pose (Pose.set_orientation v).
Definition set_vel_x (v : float) : t → t := on_linear (Vector3.set_x v).
Definition set_vel_y (v : float) : t → t := on_linear (Vector3.set_y v).
Definition set_vel_z (v : float) : t → t := on_linear (Vector3.set_z v).
Definition set_vel_angular (v : Vector3.t) : t → t :=
  on_twist (Twist.set_angular v).
Definition set_pose_covariance (v : list float) (s : t) : t :=
  set_pose_with_covariance
    (PoseWithCovariance.set_covariance v (pose_with_covariance s)) s.
Definition set_twist_covariance (v : list float) (s : t) : t :=
  set_twist_with_covariance
    (TwistWithCovariance.set_covariance v (twist_with_covariance s)) s.

(** Modelled from the spec: [State()], the generated constructor, is not
  under src/. Every numeric field of a fresh message is zero (spec,
  section 3: "its fields default to a defined neutral value (zero)");
  the covariance blocks are the 6x6 blocks of the geometry messages. *)
Definition new : t :=
  mk (Header.mk 0 (Time.mk 0 0) "")
     (PoseWithCovariance.mk
          (Pose.mk (Point.mk 0 0 0) (Quaternion.mk 0 0 0 0))
          (replicate 36 0%float))
     (TwistWithCovariance.mk
          (Twist.mk (Vector3.mk 0 0 0) (Vector3.mk 0 0 0))
          (replicate 36 0%float)).
End State.

(** ** Exceptions, external calls and the trace *)

(** A dictionary key: a [str] or an [int]. *)
Inductive key : Type :=
| KStr (s : string)
| KInt (n : Z).

Definition apostrophe : ascii := ascii_of_nat 39.
Definition double_quote : ascii := ascii_of_nat 34.
Definition backslash : ascii := ascii_of_nat 92.

Fixpoint occurs (c : ascii) (s : string) : bool :=
  match s with
  | EmptyString => false
  | String c' s => Ascii.eqb c c' || occurs c s
  end.

Definition hex_digit (n : N) : ascii :=
  ascii_of_N (if (n <? 10)%N then 48 + n else 87 + n)%N.

(** One character inside [repr] of a [str]: the quote and the backslash
    are escaped, tab, newline and carriage return have their letters, any
    other character outside the printable ASCII range is written in
    hexadecimal. *)
Definition repr_char (quote c : ascii) : string :=
  let n := N_of_ascii c in
  if Ascii.eqb c quote || Ascii.eqb c backslash then
    String backslash (String c EmptyString)
  else if (n =? 9)%N then String backslash "t"
  else if (n =? 10)%N then String backslash "n"
  else if (n =? 13)%N then String backslash "r"
  else if (n <? 32)%N || (127 <=? n)%N then
    String backslash
      (String "x" (String (hex_digit (n / 16)) (String (hex_digit (n mod 16))
         EmptyString)))
  else String c EmptyString.

Fixpoint repr_chars (quote : ascii) (s : string) : string :=
  match s with
  | EmptyString => EmptyString
  | String c s => repr_char quote c +:+ repr_chars quote s
  end.

(** [repr] of a [str]: in apostrophes, or in double quotes when the
    string has an apostrophe and no double quote. *)
Definition repr_str (s : string) : string :=
  let quote :=
    if occurs apostrophe s && negb (occurs double_quote s)
    then double_quote else apostrophe in
  String quote (repr_chars quote s +:+ String quote EmptyString).

Definition repr (k : key) : string :=
  match k with
  | KStr s => repr_str s
  | KInt n => pretty n
  end.

(** The Python exceptions that can occur in this file: a [KeyError] with
    its key, the others with their message. *)
Inductive exn : Type :=
| KeyError (k : key)
| AttributeError (msg : string)
| UnboundLocalError (msg : string)
| OSError (msg : string)
| ROSException (msg : string)
| KeyboardInterrupt.

(** [except Exception] catches every exception but those that derive from
    [BaseException] only. *)
Definition is_Exception (e : exn) : bool :=
  match e with
  | KeyboardInterrupt => false
  | _ => true
  end.

(** [str(e)], as [print e] shows it; for a [KeyError] it is [repr] of the
    key. *)
Definition str_exn (e : exn) : string :=
  match e with
  | KeyError k => repr k
  | AttributeError msg | UnboundLocalError msg
  | OSError msg | ROSException msg => msg
  | KeyboardInterrupt => ""
  end.

(** A process object returned by [subprocess.Popen]: the number of the
    [Popen] call that made it. *)
Definition handle := nat.

(** The bound methods passed to [rospy.Subscriber]. *)
Inductive method := Method_state_callback | Method_ema_helper_callback.

Inductive result (A : Type) : Type :=
| Returns (a : A)
| Raises (e : exn).
Arguments Returns {A} a.
Arguments Raises {A} e.

(** One entry per call that leaves the interpreter, in program order. *)
Inductive event : Type :=
| EvPublisher (topic : string)
| EvSubscriber (topic : string) (callback : method)
| EvPrint (line : string)
| EvPopen (cmd : string) (r : result handle)
| EvInitNode (name : string) (r : result unit)
| EvSpin (r : result unit)
| EvTerminate (process : handle) (r : result unit)
| EvPublish (topic : string) (msg : State.t).

(** What the outside world answers. [subprocess.Popen], [rospy.init_node],
    [rospy.spin] and [Popen.terminate] may raise; [print], the
    [rospy.Publisher] and [rospy.Subscriber] constructors, [publish] and
    [rospy.Time.now] are taken to return. *)
Record env := Env {
  Popen_raises : nat → option exn;  (* by the number of earlier Popen calls *)
  init_node_raises : option exn;
  spin_raises : option exn;
  terminate_raises : handle → option exn;
  Time_now : nat → Time.t           (* by the number of earlier events *) }.

Definition M (A : Type) : Type := env → list event → list event * result A.

#[global] Instance M_ret : MRet M := λ A a E tr, (tr, Returns a).
#[global] Instance M_bind : MBind M := λ A B f m E tr,
  match m E tr with
  | (tr', Returns a) => f a E tr'
  | (tr', Raises e) => (tr', Raises e)
  end.

Definition raise {A} (e : exn) : M A := λ E tr, (tr, Raises e).

(** [try: body except Exception as e: handler]. *)
Definition try_except {A} (body : M A) (handler : exn → M A) : M A :=
  λ E tr,
    match body E tr with
    | (tr', Raises e) =>
        if is_Exception e then handler e E tr' else (tr', Raises e)
    | r => r
    end.

(** [try: body finally: finalbody]. The final block sees what the body
    had bound when it returned, and nothing when the body raised. An
    exception of the final block replaces a pending one; otherwise the
    pending one is raised again. *)
Definition try_finally {A} (body : M A) (finalbody : option A → M unit) : M unit :=
  λ E tr,
    match body E tr with
    | (tr', Returns a) => finalbody (Some a) E tr'
    | (tr', Raises e) =>
        match finalbody None E tr' with
        | (tr'', Returns _) => (tr'', Raises e)
        | r => r
        end
    end.

(** [for x in xs: body], the loop's variables threaded as [s]. *)
Fixpoint for_ {A S} (xs : list A) (body : S → A → M S) (s : S) : M S :=
  match xs with
  | [] => mret s
  | x :: xs => s' ← body s x; for_ xs body s'
  end.

Definition emit (ev : event) : M unit := λ E tr, (tr ++ [ev], Returns ()).

Definition print (line : string) : M unit := emit (EvPrint line).
Definition rospy_Publisher (topic : string) : M string :=
  emit (EvPublisher topic);; mret topic.
Definition rospy_Subscriber (topic : string) (callback : method) : M unit :=
  emit (EvSubscriber topic callback).
(** [pub.publish(msg)]: the event holds the record as it is handed over.
    What rospy does with it from there on (serialising, numbering the
    header) is outside this file and is not followed. *)
Definition publish (pub : string) (msg : State.t) : M unit :=
  emit (EvPublish pub msg).
Definition rospy_Time_now : M Time.t :=
  λ E tr, (tr, Returns (Time_now E (length tr))).

Definition is_Popen (ev : event) : bool :=
  match ev with EvPopen _ _ => true | _ => false end.

(** The number of [Popen] calls made so far. *)
Definition Popen_calls (tr : list event) : nat := length (filter is_Popen tr).

Definition subprocess_Popen (cmd : string) : M handle :=
  λ E tr,
    let n := Popen_calls tr in
    match Popen_raises E n with
    | Some e => (tr ++ [EvPopen cmd (Raises e)], Raises e)
    | None => (tr ++ [EvPopen cmd (Returns n)], Returns n)
    end.

Definition rospy_init_node (name : string) : M unit :=
  λ E tr,
    match init_node_raises E with
    | Some e => (tr ++ [EvInitNode name (Raises e)], Raises e)
    | None => (tr ++ [EvInitNode name (Returns ())], Returns ())
    end.

Definition rospy_spin : M unit :=
  λ E tr,
    match spin_raises E with
    | Some e => (tr ++ [EvSpin (Raises e)], Raises e)
    | None => (tr ++ [EvSpin (Returns ())], Returns ())
    end.

Definition terminate (process : handle) : M unit :=
  λ E tr,
    match terminate_raises E process with
    | Some e => (tr ++ [EvTerminate process (Raises e)], Raises e)
    | None => (tr ++ [EvTerminate process (Returns ())], Returns ())
    end.

(** [d[k]] on a dict with string keys. *)
Definition getitem (d : gmap string string) (k : string) : M string :=
  match d !! k with
  | Some v => mret v
  | None => raise (KeyError (KStr k))
  end.

(** ** class StateEstimator *)

Record StateEstimator := {
  state_msg : State.t;
  primary_estimator : string;
  other_estimators : option (list string);
  process_cmds_dict : gmap string string;
  can_use_throttled_ir : list string;
  can_use_throttled_imu : list string;
  can_use_throttled_optical_flow : list string;
  can_use_throttled_camera_pose : list string;
  processes : list (string * handle);
  ukf_topics : gmap Z string;
  ema_topic : string;
  simulator_topic : string;
  state_pub : string;
  (* assigned by start_estimator_subprocess_cmds, and only for 'ukf2d' *)
  ema_state_msg : option State.t }.

Definition set_state_msg (v : State.t) (self : StateEstimator) : StateEstimator :=
  {| state_msg := v;
     primary_estimator := primary_estimator self;
     other_estimators := other_estimators self;
     process_cmds_dict := process_cmds_dict self;
     can_use_throttled_ir := can_use_throttled_ir self;
     can_use_throttled_imu := can_use_throttled_imu self;
     can_use_throttled_optical_flow := can_use_throttled_optical_flow self;
     can_use_throttled_camera_pose := can_use_throttled_camera_pose self;
     processes := processes self;
     ukf_topics := ukf_topics self;
     ema_topic := ema_topic self;
     simulator_topic := simulator_topic self;
     state_pub := state_pub self;
     ema_state_msg := ema_state_msg self |}.

Definition set_processes (v : list (string * handle)) (self : StateEstimator)
  : StateEstimator :=
  {| state_msg := state_msg self;
     primary_estimator := primary_estimator self;
     other_estimators := other_estimators self;
     process_cmds_dict := process_cmds_dict self;
     can_use_throttled_ir := can_use_throttled_ir self;
     can_use_throttled_imu := can_use_throttled_imu self;
     can_use_throttled_optical_flow := can_use_throttled_optical_flow self;
     can_use_throttled_camera_pose := can_use_throttled_camera_pose self;
     processes := v;
     ukf_topics := ukf_topics self;
     ema_topic := ema_topic self;
     simulator_topic := simulator_topic self;
     state_pub := state_pub self;
     ema_state_msg := ema_state_msg self |}.

Definition set_ema_state_msg (v : State.t) (self : StateEstimator)
  : StateEstimator :=
  {| state_msg := state_msg self;
     primary_estimator := primary_estimator self;
     other_estimators := other_estimators self;
     process_cmds_dict := process_cmds_dict self;
     can_use_throttled_ir := can_use_throttled_ir self;
     can_use_throttled_imu := can_use_throttled_imu self;
     can_use_throttled_optical_flow := can_use_throttled_optical_flow self;
     can_use_throttled_camera_pose := can_use_throttled_camera_pose self;
     processes := processes self;
     ukf_topics := ukf_topics self;
     ema_topic := ema_topic self;
     simulator_topic := simulator_topic self;
     state_pub := state_pub self;
     ema_state_msg := Some v |}.

(** [self.ema_state_msg], an attribute that may not exist. *)
Definition get_ema_state_msg (self : StateEstimator) : M State.t :=
  match ema_state_msg self with
  | Some m => mret m
  | None =>
      raise (AttributeError
               "'StateEstimator' object has no attribute 'ema_state_msg'")
  end.

(** [self.ukf_topics[k]]. *)
Definition get_ukf_topic (self : StateEstimator) (k : Z) : M string :=
  match ukf_topics self !! k with
  | Some v => mret v
  | None => raise (KeyError (KInt k))
  end.

Definition append_throttle_flags (self : StateEstimator) (cmd estimator : string)
  : string :=
  let cmd := if decide (estimator ∈ can_use_throttled_ir self)
             then cmd +:+ " --ir_throttled" else cmd in
  let cmd := if decide (estimator ∈ can_use_throttled_imu self)
             then cmd +:+ " --imu_throttled" else cmd in
  let cmd := if decide (estimator ∈ can_use_throttled_optical_flow self)
             then cmd +:+ " --optical_flow_throttled" else cmd in
  let cmd := if decide (estimator ∈ can_use_throttled_camera_pose self)
             then cmd +:+ " --camera_pose_throttled" else cmd in
  cmd.

(** The second loop of [start_estimator_subprocess_cmds]: one [Popen] per
    command, each appended to [self.processes]. *)
Definition start_processes (process_cmds : list string) (self : StateEstimator)
  : M StateEstimator :=
  for_ process_cmds
    (λ self p,
       print ("Starting: " +:+ p);;
       process ← subprocess_Popen p;
       mret (set_processes (processes self ++ [(p, process)]) self))
    self.

(** The first loop: the commands of the non-primary estimators. The test
    looks for the estimator's id among the command strings collected so
    far. *)
Definition other_process_cmds (self : StateEstimator)
    (others : list string) (process_cmds : list string) : M (list string) :=
  for_ others
    (λ process_cmds other_estimator,
       if decide (other_estimator ∉ process_cmds) then
         other_cmd ← getitem (process_cmds_dict self) other_estimator;
         let other_cmd := append_throttle_flags self other_cmd other_estimator in
         mret (process_cmds ++ [other_cmd])
       else mret process_cmds)
    process_cmds.

Definition start_estimator_subprocess_cmds (self : StateEstimator)
  : M StateEstimator :=
  cmd ← getitem (process_cmds_dict self) (primary_estimator self);
  let cmd := append_throttle_flags self cmd (primary_estimator self) in
  let process_cmds := [cmd] in
  '(self, process_cmds) ←
    (if decide (primary_estimator self = "ukf2d") then
       ema_cmd ← getitem (process_cmds_dict self) "ema";
       let process_cmds := process_cmds ++ [ema_cmd] in
       let self := set_ema_state_msg State.new self in
       rospy_Subscriber (ema_topic self) Method_ema_helper_callback;;
       topic ← get_ukf_topic self 2;
       rospy_Subscriber topic Method_state_callback;;
       mret (self, process_cmds)
     else if decide (primary_estimator self = "ukf7d") then
       topic ← get_ukf_topic self 7;
       rospy_Subscriber topic Method_state_callback;;
       mret (self, process_cmds)
     else if decide (primary_estimator self = "ema") then
       rospy_Subscriber (ema_topic self) Method_state_callback;;
       mret (self, process_cmds)
     else if decide (primary_estimator self = "simulator") then
       rospy_Subscriber (simulator_topic self) Method_state_callback;;
       mret (self, process_cmds)
     else mret (self, process_cmds));
  process_cmds ←
    match other_estimators self with
    | Some others => other_process_cmds self others process_cmds
    | None => mret process_cmds
    end;
  start_processes process_cmds self.

Definition initialize_ros (self : StateEstimator) : M unit :=
  let node_name := "state_estimator" in
  rospy_init_node node_name;;
  rospy_spin.

(** The attributes [__init__] assigns before it starts the estimators;
    [ema_state_msg] does not exist yet. *)
Definition attributes (primary : string) (others : option (list string))
    (sdim : Z) (state_pub : string) : StateEstimator :=
  {| state_msg := State.new;
     primary_estimator := primary;
     other_estimators := others;
     process_cmds_dict :=
       {[ "ema" := "python StateEstimators/state_estimator_ema.py";
          "ukf2d" := "python StateEstimators/student_state_estimator_ukf_2d.py";
          "ukf7d" := "python StateEstimators/student_state_estimator_ukf_7d.py";
          "simulator" :=
            "rosrun pidrone_pkg drone_simulator.py --dim " +:+ pretty sdim ]};
     can_use_throttled_ir := ["ukf2d"; "ukf7d"];
     can_use_throttled_imu := ["ukf2d"; "ukf7d"];
     can_use_throttled_optical_flow := ["ukf7d"];
     can_use_throttled_camera_pose := ["ukf7d"];
     processes := [];
     ukf_topics := {[ 2 := "/pidrone/state/ukf_2d";
                      7 := "/pidrone/state/ukf_7d" ]};
     ema_topic := "/pidrone/state/ema";
     simulator_topic := "/pidrone/state/simulator";
     state_pub := state_pub;
     ema_state_msg := None |}.

(** The four throttle arguments are accepted and not used. *)
Definition __init__ (primary : string) (others : option (list string))
    (ir_throttled imu_throttled optical_flow_throttled
       camera_pose_throttled : bool) (sdim : Z) : M StateEstimator :=
  state_pub ← rospy_Publisher "/pidrone/state";
  let self := attributes primary others sdim state_pub in
  self ← start_estimator_subprocess_cmds self;
  initialize_ros self;;
  mret self.

(** [self.state_msg.<path> = v]: the one output message, written in
    place. *)
Definition update_state_msg (f : State.t → State.t) (self : StateEstimator)
  : StateEstimator :=
  set_state_msg (f (state_msg self)) self.

(** Callback that handles the primary estimator republishing. *)
Definition state_callback (self : StateEstimator) (msg : State.t)
  : M StateEstimator :=
  now ← rospy_Time_now;
  let self := update_state_msg (State.set_stamp now) self in
  '(x, y, vel_x, vel_y) ←
    (if decide (primary_estimator self = "ukf2d") then
       (* Use EMA data for x and y positions and velocities *)
       ema_state_msg ← get_ema_state_msg self;
       mret (State.x ema_state_msg, State.y ema_state_msg,
             State.vel_x ema_state_msg, State.vel_y ema_state_msg)
     else
       (* Use primary_estimator data for x and y positions and velocities *)
       mret (State.x msg, State.y msg, State.vel_x msg, State.vel_y msg));
  let z := State.z msg in
  let vel_z := State.vel_z msg in
  let orientation := State.orientation msg in
  let vel_angular := State.vel_angular msg in
  let self := update_state_msg (State.set_x x) self in
  let self := update_state_msg (State.set_y y) self in
  let self := update_state_msg (State.set_z z) self in
  let self := update_state_msg (State.set_orientation orientation) self in
  let self := update_state_msg (State.set_vel_x vel_x) self in
  let self := update_state_msg (State.set_vel_y vel_y) self in
  let self := update_state_msg (State.set_vel_z vel_z) self in
  let self := update_state_msg (State.set_vel_angular vel_angular) self in
  (* Include covariances *)
  let self :=
    update_state_msg (State.set_pose_covariance (State.pose_covariance msg))
      self in
  let self :=
    update_state_msg (State.set_twist_covariance (State.twist_covariance msg))
      self in
  publish (state_pub self) (state_msg self);;
  mret self.

(** When the primary estimator is the 2D UKF, populate
    [self.ema_state_msg] in this callback. *)
Definition ema_helper_callback (self : StateEstimator) (msg : State.t)
  : M StateEstimator :=
  ema_state_msg ← get_ema_state_msg self;
  let ema_state_msg := State.set_x (State.x msg) ema_state_msg in
  let ema_state_msg := State.set_y (State.y msg) ema_state_msg in
  let ema_state_msg := State.set_vel_x (State.vel_x msg) ema_state_msg in
  let ema_state_msg := State.set_vel_y (State.vel_y msg) ema_state_msg in
  mret (set_ema_state_msg ema_state_msg self).

(** The cache exists whenever [state_callback] is going to read it. *)
Definition wired (self : StateEstimator) : Prop :=
  primary_estimator self = "ukf2d" → is_Some (ema_state_msg self).

(** ** main *)

(** The result of [parser.parse_args()]. *)
Module Namespace.
Record t := mk {
  primary : string;
  others : option (list string);
  ir_throttled : bool;
  imu_throttled : bool;
  optical_flow_throttled : bool;
  camera_pose_throttled : bool;
  sdim : Z }.
End Namespace.

(** The loop of the [finally] block. *)
Definition terminate_processes (processes : list (string * handle)) : M unit :=
  for_ processes
    (λ _ '(process_name, process),
       print ("Terminating: " +:+ process_name);;
       terminate process)
    ().

(** The [finally] block. [se] is the local variable of [main]: [None]
    while nothing has been assigned to it. *)
Definition main_finally (se : option StateEstimator) : M unit :=
  print "Terminating subprocess calls...";;
  se ← match se with
       | Some se => mret se
       | None =>
           raise (UnboundLocalError
                    "local variable 'se' referenced before assignment")
       end;
  terminate_processes (processes se);;
  print "Done.".

(** The call [StateEstimator(primary=args.primary, ...)] of [main]. *)
Definition construct (args : Namespace.t) : M StateEstimator :=
  __init__ (Namespace.primary args) (Namespace.others args)
    (Namespace.ir_throttled args) (Namespace.imu_throttled args)
    (Namespace.optical_flow_throttled args)
    (Namespace.camera_pose_throttled args) (Namespace.sdim args).

(** [main], after [parser.parse_args()]. The value of the [try] part is
    the binding of [se]: the constructed object, or nothing when the
    [except] clause ran. *)
Definition main (args : Namespace.t) : M unit :=
  try_finally
    (try_except
       (se ← construct args; mret (Some se))
       (λ e, print (str_exn e);; mret None))
    (λ bound, main_finally (bound ≫= id)).

(** ** Reading a trace *)

(** The processes a run has started, in launch order. *)
Definition launched (tr : list event) : list (string * handle) :=
  omap (λ ev, match ev with
              | EvPopen cmd (Returns p) => Some (cmd, p)
              | _ => None
              end) tr.

(** The processes on which [terminate] was called, in call order, whether
    the call returned or raised. *)
Definition terminate_attempts (tr : list event) : list handle :=
  omap (λ ev, match ev with
              | EvTerminate p _ => Some p
              | _ => None
              end) tr.

(** An environment in which nothing raises. *)
Definition quiet : env :=
  Env (λ _, None) None None (λ _, None) (λ n, Time.mk (Z.of_nat n) 0).

Definition run {A} (m : M A) (E : env) : list event * result A := m E [].

Definition is_terminate (ev : event) : bool :=
  match ev with EvTerminate _ _ => true | _ => false end.

(** [m] appends to the trace, and only events that satisfy [P]. *)
Definition emits_only {A} (P : event → Prop) (m : M A) : Prop :=
  ∀ E tr, ∃ evs, (m E tr).1 = tr ++ evs ∧ Forall P evs.

(** ** Shutdown, as the loop does it and as the spec words it *)

(** The attempts the [finally] loop makes on [processes] and the
    exception it ends with, if any: it goes through the list in order and
    stops at the first [terminate] that raises. *)
Fixpoint until_failure (E : env) (processes : list (string * handle))
  : list handle * option exn :=
  match processes with
  | [] => ([], None)
  | (_, process) :: processes =>
      match terminate_raises E process with
      | Some e => ([process], Some e)
      | None =>
          let '(attempts, failure) := until_failure E processes in
          (process :: attempts, failure)
      end
  end.

Definition outcome (failure : option exn) : result unit :=
  match failure with
  | Some e => Raises e
  | None => Returns ()
  end.

(** The shutdown rule in the spec's words (section 4.2), read on a run of
    [main]: termination is attempted for every launched process, in
    launch order, and a failure to terminate one of them is not what
    [main] ends with. *)
Definition spec_shutdown_catches_failures (args : Namespace.t) (E : env) : Prop :=
  let '(tr, r) := run (main args) E in
  terminate_attempts tr = (launched tr).*2
  ∧ ∀ p e, terminate_raises E p = Some e → r ≠ Raises e.

(** ** The launch plan *)

(** The ids [argparse] accepts for [--primary] and [--others]. *)
Definition arg_choices : list string := ["ema"; "ukf2d"; "ukf7d"; "simulator"].

(** The ids of [args] are among [arg_choices], as they are when [args]
    comes from [parser.parse_args()]. *)
Definition known (args : Namespace.t) : Prop :=
  Namespace.primary args ∈ arg_choices
  ∧ Forall (.∈ arg_choices) (default [] (Namespace.others args)).

(** The command an estimator of [arg_choices] is launched with: its entry
    of [process_cmds_dict] followed by what [append_throttle_flags]
    appends for it. *)
Definition launch_command (sdim : Z) (estimator : string) : string :=
  if decide (estimator = "ema") then
    "python StateEstimators/state_estimator_ema.py"
  else if decide (estimator = "ukf2d") then
    "python StateEstimators/student_state_estimator_ukf_2d.py --ir_throttled --imu_throttled"
  else if decide (estimator = "ukf7d") then
    "python StateEstimators/student_state_estimator_ukf_7d.py --ir_throttled --imu_throttled --optical_flow_throttled --camera_pose_throttled"
  else "rosrun pidrone_pkg drone_simulator.py --dim " +:+ pretty sdim.

(** The throttle flags each estimator supports, by the four tables of
    [__init__], in the order ir, imu, optical flow, camera pose. *)
Definition supported_flags (estimator : string) : list string :=
  (if decide (estimator ∈ ["ukf2d"; "ukf7d"])
   then [" --ir_throttled"] else [])
  ++ (if decide (estimator ∈ ["ukf2d"; "ukf7d"])
      then [" --imu_throttled"] else [])
  ++ (if decide (estimator ∈ ["ukf7d"])
      then [" --optical_flow_throttled"] else [])
  ++ (if decide (estimator ∈ ["ukf7d"])
      then [" --camera_pose_throttled"] else []).

(** The estimators started for the primary one: under 'ukf2d' the EMA
    comes with it. *)
Definition primary_ids (primary : string) : list string :=
  if decide (primary = "ukf2d") then ["ukf2d"; "ema"] else [primary].

(** The commands to launch for [args], in order: one per entry of
    [others], whether or not it is there already. *)
Definition launch_commands (args : Namespace.t) : list string :=
  launch_command (Namespace.sdim args)
    <$> (primary_ids (Namespace.primary args)
           ++ default [] (Namespace.others args)).

(** The subscriptions by primary estimator: topic and callback. *)
Definition topology (primary : string) : list (string * method) :=
  if decide (primary = "ukf2d") then
    [("/pidrone/state/ema", Method_ema_helper_callback);
     ("/pidrone/state/ukf_2d", Method_state_callback)]
  else if decide (primary = "ukf7d") then
    [("/pidrone/state/ukf_7d", Method_state_callback)]
  else if decide (primary = "ema") then
    [("/pidrone/state/ema", Method_state_callback)]
  else if decide (primary = "simulator") then
    [("/pidrone/state/simulator", Method_state_callback)]
  else [].

Definition wiring (primary : string) : list event :=
  (λ s, EvSubscriber s.1 s.2) <$> topology primary.

(** [self] after the wiring: with the EMA cache under 'ukf2d'. *)
Definition wire (primary : string) (self : StateEstimator) : StateEstimator :=
  if decide (primary = "ukf2d") then set_ema_state_msg State.new self else self.

(** [self] has the command table and the throttle tables of [__init__]. *)
Definition has_registry (sdim : Z) (self : StateEstimator) : Prop :=
  process_cmds_dict self = process_cmds_dict (attributes "" None sdim "")
  ∧ can_use_throttled_ir self = ["ukf2d"; "ukf7d"]
  ∧ can_use_throttled_imu self = ["ukf2d"; "ukf7d"]
  ∧ can_use_throttled_optical_flow self = ["ukf7d"]
  ∧ can_use_throttled_camera_pose self = ["ukf7d"].

(** What the launch loop achieves on [cmds] when [n] calls of [Popen]
    have been made before: the processes it starts, and the exception of
    the first [Popen] that raises, at which it stops. *)
Fixpoint launch_until_failure (E : env) (n : nat) (cmds : list string)
  : list (string * handle) * option exn :=
  match cmds with
  | [] => ([], None)
  | p :: cmds =>
      match Popen_raises E n with
      | Some e => ([], Some e)
      | None =>
          let '(started, failure) := launch_until_failure E (S n) cmds in
          ((p, n) :: started, failure)
      end
  end.

(** The subscriptions a run has made, in order. *)
Definition subscriptions (tr : list event) : list (string * method) :=
  omap (λ ev, match ev with
              | EvSubscriber topic callback => Some (topic, callback)
              | _ => None
              end) tr.

(** The messages a run has published, in order. *)
Definition published (tr : list event) : list State.t :=
  omap (λ ev, match ev with
              | EvPublish _ msg => Some msg
              | _ => None
              end) tr.

(** The events of a shutdown: lines printed and [terminate] calls. *)
Definition is_shutdown_event (ev : event) : bool :=
  match ev with
  | EvPrint _ | EvTerminate _ _ => true
  | _ => false
  end.

(** What the [finally] block raises when [se] was never assigned. *)
Definition unbound_se : exn :=
  UnboundLocalError "local variable 'se' referenced before assignment".

(** ** Example inputs *)

(** The command line [--primary ukf2d]. *)
Definition ukf2d_args : Namespace.t :=
  Namespace.mk "ukf2d" None false false false false 1.

(** The default command line: [--primary ema]. *)
Definition default_args : Namespace.t :=
  Namespace.mk "ema" None false false false false 1.

(** The first process launched refuses to terminate. *)
Definition first_refuses : env :=
  Env (λ _, None) None None
    (λ p, if decide (p = 0%nat)
          then Some (OSError "[Errno 3] No such process") else None)
    (λ _, Time.mk 0 0).

(** [rospy.init_node] raises after the estimators have been started. *)
Definition init_node_interrupted : env :=
  Env (λ _, None)
    (Some (ROSException "init_node interrupted before it could complete"))
    None (λ _, None) (λ _, Time.mk 0 0).

(** Ctrl-C while [rospy.spin] blocks, delivered as a
    [KeyboardInterrupt]. *)
Definition spin_interrupted : env :=
  Env (λ _, None) None (Some KeyboardInterrupt) (λ _, None)
    (λ _, Time.mk 0 0).

(** The second [Popen] cannot fork. *)
Definition second_Popen_fails : env :=
  Env (λ n, if decide (n = 1%nat)
            then Some (OSError "[Errno 11] Resource temporarily unavailable")
            else None)
    None None (λ _, None) (λ _, Time.mk 0 0).

(** Example objects: the coordinator as [__init__] leaves it when the
    estimators have been started, for 'ukf2d' and for the default 'ema';
    an EMA message and a 2D UKF message. *)
Definition ukf2d_coordinator : StateEstimator :=
  set_ema_state_msg State.new (attributes "ukf2d" None 1 "/pidrone/state").

Definition ema_coordinator : StateEstimator :=
  attributes "ema" None 1 "/pidrone/state".

Definition ema_sample : State.t :=
  State.set_vel_y 4 (State.set_vel_x 3 (State.set_y 2 (State.set_x 1
    (State.set_z 9 State.new)))).

Definition ukf_sample : State.t :=
  State.set_vel_z 6 (State.set_z 5 (State.set_x 7 (State.set_vel_y 8
    (State.set_pose_covariance [1; 2]%float State.new)))).

(** * Properties *)

(** ** The message callbacks *)

Section Callbacks.
Context (E : env) (tr : list event).

(** What one fusion does: it returns, publishes exactly one message, the
    written [state_msg], and changes nothing else of [self]. The
    horizontal fields come from [src]: the EMA cache under 'ukf2d', the
    message itself otherwise. *)
Lemma state_callback_publishes (self : StateEstimator) (msg src : State.t) :
  (if decide (primary_estimator self = "ukf2d")
   then ema_state_msg self = Some src else src = msg) →
  ∃ out,
    state_callback self msg E tr
      = (tr ++ [EvPublish (state_pub self) out],
         Returns (set_state_msg out self))
    ∧ State.stamp out = Time_now E (length tr)
    ∧ (State.x out = State.x src ∧ State.y out = State.y src
       ∧ State.vel_x out = State.vel_x src
       ∧ State.vel_y out = State.vel_y src)
    ∧ (State.z out = State.z msg ∧ State.vel_z out = State.vel_z msg
       ∧ State.orientation out = State.orientation msg
       ∧ State.vel_angular out = State.vel_angular msg)
    ∧ State.pose_covariance out = State.pose_covariance msg
    ∧ State.twist_covariance out = State.twist_covariance msg.
Proof.
  intros Hsrc. unfold state_callback, rospy_Time_now, mbind, M_bind. cbn.
  destruct (decide (primary_estimator self = "ukf2d")) as [_|_].
  - unfold get_ema_state_msg. cbn. rewrite Hsrc. cbn.
    eexists. split; [reflexivity|]. cbn. tauto.
  - subst src. cbn. eexists. split; [reflexivity|]. cbn. tauto.
Qed.

(** What one cache update does: it returns, emits nothing, and replaces
    the cache by a copy in which the four horizontal fields are the
    message's. *)
Lemma ema_helper_callback_updates (self : StateEstimator) (msg cache : State.t) :
  ema_state_msg self = Some cache →
  ema_helper_callback self msg E tr
  = (tr, Returns
           (set_ema_state_msg
              (State.set_vel_y (State.vel_y msg)
                 (State.set_vel_x (State.vel_x msg)
                    (State.set_y (State.y msg)
                       (State.set_x (State.x msg) cache)))) self)).
Proof.
  intros Hc. unfold ema_helper_callback, get_ema_state_msg, mbind, M_bind.
  now rewrite Hc.
Qed.

(** Without the cache the update raises and emits nothing. *)
Lemma ema_helper_callback_unwired (self : StateEstimator) (msg : State.t) :
  ema_state_msg self = None →
  ∃ e, ema_helper_callback self msg E tr = (tr, Raises e).
Proof.
  intros Hc. unfold ema_helper_callback, get_ema_state_msg, mbind, M_bind.
  rewrite Hc. now eexists.
Qed.

End Callbacks.

(** C6: for a primary estimator of 'ema', 'ukf7d' or 'simulator', fusing a
    primary message publishes one record whose x, y, vel_x and vel_y are
    exactly the message's. *)
Theorem direct_primary_passthrough
    (self : StateEstimator) (msg : State.t) (E : env) (tr : list event) :
  primary_estimator self ∈ ["ema"; "ukf7d"; "simulator"] →
  ∃ self' out,
    state_callback self msg E tr
      = (tr ++ [EvPublish (state_pub self) out], Returns self')
    ∧ state_msg self' = out
    ∧ State.x out = State.x msg
    ∧ State.y out = State.y msg
    ∧ State.vel_x out = State.vel_x msg
    ∧ State.vel_y out = State.vel_y msg.
Proof.
  intros Hp.
  destruct (state_callback_publishes E tr self msg msg) as (out & Hrun & H).
  { case_decide as Hu; [|done]. rewrite Hu in Hp.
    apply list_elem_of_In in Hp. cbn in Hp. intuition congruence. }
  exists (set_state_msg out self), out. split; [done|]. cbn. tauto.
Qed.

Lemma direct_primary_passthrough_witness :
  ∃ self' out,
    state_callback ema_coordinator ukf_sample quiet []
      = ([EvPublish "/pidrone/state" out], Returns self')
    ∧ state_msg self' = out
    ∧ State.x out = 7%float
    ∧ State.y out = 0%float
    ∧ State.vel_x out = 0%float
    ∧ State.vel_y out = 8%float.
Proof.
  apply (direct_primary_passthrough ema_coordinator ukf_sample quiet []).
  cbn. apply list_elem_of_In. cbn. tauto.
Defined.

(** C8: whatever the primary estimator, fusing a primary message
    publishes one record whose z, vel_z, orientation and angular velocity
    are the message's, and whose two covariance blocks are the message's
    blocks as they are; the EMA cache contributes to none of them. Under
    'ukf2d' the cache has to exist, as it does once the estimators have
    been started. *)
Theorem primary_authoritative_fields
    (self : StateEstimator) (msg : State.t) (E : env) (tr : list event) :
  (primary_estimator self = "ukf2d" → is_Some (ema_state_msg self)) →
  ∃ self' out,
    state_callback self msg E tr
      = (tr ++ [EvPublish (state_pub self) out], Returns self')
    ∧ state_msg self' = out
    ∧ State.z out = State.z msg
    ∧ State.vel_z out = State.vel_z msg
    ∧ State.orientation out = State.orientation msg
    ∧ State.vel_angular out = State.vel_angular msg
    ∧ State.pose_covariance out = State.pose_covariance msg
    ∧ State.twist_covariance out = State.twist_covariance msg.
Proof.
  intros Hwired.
  assert (∃ src, if decide (primary_estimator self = "ukf2d")
                 then ema_state_msg self = Some src else src = msg)
    as [src Hsrc].
  { case_decide as Hu; [|by exists msg].
    destruct (Hwired Hu) as [cache Hc]. by exists cache. }
  destruct (state_callback_publishes E tr self msg src Hsrc)
    as (out & Hrun & _ & _ & Hprimary & Hpose & Htwist).
  exists (set_state_msg out self), out. split; [done|]. cbn. tauto.
Qed.

Lemma primary_authoritative_fields_witness :
  ∃ self' out,
    state_callback
      (set_ema_state_msg ema_sample ukf2d_coordinator) ukf_sample quiet []
      = ([EvPublish "/pidrone/state" out], Returns self')
    ∧ state_msg self' = out
    ∧ State.z out = 5%float
    ∧ State.vel_z out = 6%float
    ∧ State.orientation out = Quaternion.mk 0 0 0 0
    ∧ State.vel_angular out = Vector3.mk 0 0 0
    ∧ State.pose_covariance out = [1; 2]%float
    ∧ State.twist_covariance out = replicate 36 0%float.
Proof.
  apply (primary_authoritative_fields
           (set_ema_state_msg ema_sample ukf2d_coordinator) ukf_sample
           quiet []).
  intros _. cbn. by eexists.
Defined.



(** C2: under 'ukf2d', after an EMA message with x=1, y=2, vel_x=3,
    vel_y=4 has been handled, fusing any primary message with z=5 and
    vel_z=6 publishes one record with x=1, y=2, z=5, vel_x=3, vel_y=4,
    vel_z=6. *)
Theorem ukf2d_output_composes_ema_and_primary
    (self : StateEstimator) (ema_msg msg : State.t)
    (E : env) (tr : list event) :
  primary_estimator self = "ukf2d" →
  is_Some (ema_state_msg self) →
  State.x ema_msg = 1%float → State.y ema_msg = 2%float →
  State.vel_x ema_msg = 3%float → State.vel_y ema_msg = 4%float →
  State.z msg = 5%float → State.vel_z msg = 6%float →
  ∃ self1 self2 out,
    ema_helper_callback self ema_msg E tr = (tr, Returns self1)
    ∧ state_callback self1 msg E tr
      = (tr ++ [EvPublish (state_pub self) out], Returns self2)
    ∧ state_msg self2 = out
    ∧ State.x out = 1%float ∧ State.y out = 2%float ∧ State.z out = 5%float
    ∧ State.vel_x out = 3%float ∧ State.vel_y out = 4%float
    ∧ State.vel_z out = 6%float.
Proof.
  intros Hu [cache Hc] Hx Hy Hvx Hvy Hz Hvz.
  pose proof (ema_helper_callback_updates E tr self ema_msg cache Hc) as Hema.
  set (cache' := State.set_vel_y _ _) in Hema.
  set (self1 := set_ema_state_msg cache' self) in Hema.
  destruct (state_callback_publishes E tr self1 msg cache')
    as (out & Hrun & _ & Hxy & Hzz & _).
  { rewrite decide_True by done. reflexivity. }
  exists self1, (set_state_msg out self1), out.
  split; [done|]. split; [done|]. split; [done|].
  destruct Hxy as (-> & -> & -> & ->). destruct Hzz as (-> & -> & _).
  cbn. rewrite Hx, Hy, Hvx, Hvy, Hz, Hvz. tauto.
Qed.

Lemma ukf2d_output_composes_ema_and_primary_witness :
  ∃ self1 self2 out,
    ema_helper_callback ukf2d_coordinator ema_sample quiet []
      = ([], Returns self1)
    ∧ state_callback self1 ukf_sample quiet []
      = ([EvPublish "/pidrone/state" out], Returns self2)
    ∧ state_msg self2 = out
    ∧ State.x out = 1%float ∧ State.y out = 2%float ∧ State.z out = 5%float
    ∧ State.vel_x out = 3%float ∧ State.vel_y out = 4%float
    ∧ State.vel_z out = 6%float.
Proof.
  apply (ukf2d_output_composes_ema_and_primary
           ukf2d_coordinator ema_sample ukf_sample quiet []);
    first [reflexivity | by eexists].
Defined.

(** ** Starting the estimators *)

Lemma bind_run {A B} (m : M A) (f : A → M B) E tr :
  (m ≫= f) E tr
  = match m E tr with
    | (tr', Returns a) => f a E tr'
    | (tr', Raises e) => (tr', Raises e)
    end.
Proof. reflexivity. Qed.

Lemma launched_app tr1 tr2 :
  launched (tr1 ++ tr2) = launched tr1 ++ launched tr2.
Proof. apply omap_app. Qed.

Lemma terminate_attempts_app tr1 tr2 :
  terminate_attempts (tr1 ++ tr2)
  = terminate_attempts tr1 ++ terminate_attempts tr2.
Proof. apply omap_app. Qed.

Lemma Popen_calls_app tr1 tr2 :
  Popen_calls (tr1 ++ tr2) = (Popen_calls tr1 + Popen_calls tr2)%nat.
Proof. unfold Popen_calls. by rewrite filter_app, length_app. Qed.

Lemma set_processes_same self : set_processes (processes self) self = self.
Proof. by destruct self. Qed.

(** The launch loop changes [self.processes] only, and keeps it equal to
    what has been launched; the new entries are the commands in order,
    each with the handle of its own [Popen] call. *)
Lemma start_processes_returns cmds : ∀ self E tr tr' self',
  start_processes cmds self E tr = (tr', Returns self') →
  self' = set_processes (processes self') self
  ∧ (processes self = launched tr → processes self' = launched tr')
  ∧ processes self'
    = processes self ++ zip cmds (seq (Popen_calls tr) (length cmds)).
Proof.
  unfold start_processes.
  induction cmds as [|p cmds IH]; intros self E tr tr' self' Hrun; cbn in Hrun.
  - injection Hrun as <- <-. cbn.
    by rewrite set_processes_same, app_nil_r.
  - unfold print, emit, subprocess_Popen in Hrun. rewrite !bind_run in Hrun.
    cbn in Hrun.
    destruct (Popen_raises E _) as [e|]; [discriminate|].
    cbn in Hrun. apply IH in Hrun as (Hself & Htrack & Hnew).
    split; [|split].
    + rewrite Hself. reflexivity.
    + intros Hp. apply Htrack. cbn. rewrite Hp, !launched_app. cbn.
      by rewrite app_nil_r.
    + rewrite Hnew. cbn. rewrite <-app_assoc. cbn.
      rewrite !Popen_calls_app. cbn. by rewrite Nat.add_0_r, Nat.add_1_r.
Qed.

(** Collecting the other estimators' commands calls nothing outside. *)
Lemma other_process_cmds_silent self others : ∀ cmds E tr tr' r,
  other_process_cmds self others cmds E tr = (tr', r) → tr' = tr.
Proof.
  unfold other_process_cmds.
  induction others as [|o others IH]; intros cmds E tr tr' r Hrun; cbn in Hrun.
  - by injection Hrun as <- _.
  - rewrite bind_run in Hrun. case_decide.
    + unfold getitem in Hrun. rewrite bind_run in Hrun.
      destruct (process_cmds_dict self !! o); cbn in Hrun.
      * by apply IH in Hrun.
      * by injection Hrun as <- _.
    + cbn in Hrun. by apply IH in Hrun.
Qed.

(** When [start_estimator_subprocess_cmds] returns, [self] differs from
    what it was in [processes] and, under 'ukf2d', in the freshly
    allocated EMA cache; the tracked processes are the launched ones. *)
Lemma start_estimator_subprocess_cmds_returns self E tr tr' self' :
  start_estimator_subprocess_cmds self E tr = (tr', Returns self') →
  self' = set_processes (processes self')
            (if decide (primary_estimator self = "ukf2d")
             then set_ema_state_msg State.new self else self)
  ∧ (processes self = launched tr → processes self' = launched tr')
  ∧ ∃ cmds,
      processes self'
      = processes self ++ zip cmds (seq (Popen_calls tr) (length cmds)).
Proof.
  unfold start_estimator_subprocess_cmds. intros Hrun.
  rewrite bind_run in Hrun. unfold getitem at 1 in Hrun.
  destruct (process_cmds_dict self !! primary_estimator self) as [cmd|];
    [|discriminate]. cbn in Hrun.
  rewrite bind_run in Hrun.
  match type of Hrun with
  | match ?m E tr with _ => _ end = _ =>
      destruct (m E tr) as [tr1 [[self1 cmds1]|e]] eqn:Hwire; [|discriminate]
  end.
  assert (launched tr1 = launched tr
          ∧ Popen_calls tr1 = Popen_calls tr
          ∧ self1 = if decide (primary_estimator self = "ukf2d")
                    then set_ema_state_msg State.new self else self)
    as (Hl & Hn & Hself1).
  { revert Hwire.
    unfold getitem, get_ukf_topic, rospy_Subscriber, emit, raise,
      mbind, M_bind, mret, M_ret.
    repeat case_decide; repeat (case_match; simplify_eq);
      intros; simplify_eq; rewrite ?launched_app, ?Popen_calls_app; cbn;
      rewrite ?app_nil_r, ?Nat.add_0_r; done. }
  assert (processes self1 = processes self) as Hp.
  { rewrite Hself1. by case_decide. }
  rewrite bind_run in Hrun.
  destruct (other_estimators self1) as [others|].
  - destruct (other_process_cmds self1 others cmds1 E tr1)
      as [tr2 [cmds2|e]] eqn:Ho; [|discriminate].
    apply other_process_cmds_silent in Ho as ->.
    apply start_processes_returns in Hrun as (Hself & Htrack & Hnew).
    split; [congruence|]. split; [intros Hp0; apply Htrack; congruence|].
    exists cmds2. congruence.
  - cbn in Hrun.
    apply start_processes_returns in Hrun as (Hself & Htrack & Hnew).
    split; [congruence|]. split; [intros Hp0; apply Htrack; congruence|].
    exists cmds1. congruence.
Qed.

(** The constructor leaves the cache where [state_callback] needs it, and
    both callbacks keep it there. *)
Lemma wired_after_start self E tr tr' self' :
  start_estimator_subprocess_cmds self E tr = (tr', Returns self') →
  wired self'.
Proof.
  intros Hs. apply start_estimator_subprocess_cmds_returns in Hs as [-> _].
  unfold wired. cbn. case_decide; cbn; [by eexists|done].
Qed.

Lemma wired_state_callback self msg E tr :
  wired self →
  ∃ tr' self',
    state_callback self msg E tr = (tr', Returns self') ∧ wired self'.
Proof.
  intros Hw.
  assert (∃ src, if decide (primary_estimator self = "ukf2d")
                 then ema_state_msg self = Some src else src = msg)
    as [src Hsrc].
  { case_decide as Hu; [|by exists msg].
    destruct (Hw Hu) as [cache Hc]. by exists cache. }
  destruct (state_callback_publishes E tr self msg src Hsrc) as (out & Hrun & _).
  by eexists _, _.
Qed.

Lemma wired_ema_helper_callback self msg E tr self' :
  ema_helper_callback self msg E tr = (tr, Returns self') → wired self'.
Proof.
  destruct (ema_state_msg self) as [cache|] eqn:Hc.
  - rewrite (ema_helper_callback_updates E tr self msg cache Hc).
    intros [= <-] _. by eexists.
  - destruct (ema_helper_callback_unwired E tr self msg Hc) as [e ->]. done.
Qed.

(** While only primary messages arrive under 'ukf2d', with the cache
    still as allocated, every fusion returns and the cache stays as it
    is. *)
Lemma primary_messages_keep_cache (earlier : list State.t) (E : env) :
  ∀ (self : StateEstimator) (tr : list event),
    primary_estimator self = "ukf2d" →
    ema_state_msg self = Some State.new →
    ∃ tr1 self1,
      for_ earlier state_callback self E tr = (tr1, Returns self1)
      ∧ primary_estimator self1 = "ukf2d"
      ∧ ema_state_msg self1 = Some State.new
      ∧ state_pub self1 = state_pub self.
Proof.
  induction earlier as [|m earlier IH]; intros self tr Hu Hc; cbn.
  - by exists tr, self.
  - destruct (state_callback_publishes E tr self m State.new)
      as (out & Hrun & _).
    { by rewrite decide_True. }
    rewrite bind_run, Hrun.
    destruct (IH (set_state_msg out self)
                (tr ++ [EvPublish (state_pub self) out]))
      as (tr1 & self1 & Hfor & ? & ? & ?); [done..|].
    by exists tr1, self1.
Qed.

(** C7: under 'ukf2d', once the estimators have been started and as long
    as no EMA message has been handled (any number of primary messages
    may have been), fusing a primary message returns and publishes one
    record with x = y = vel_x = vel_y = 0. *)
Theorem ukf2d_before_aux_publishes_zero
    (self0 self : StateEstimator) (E : env) (tr0 tr tr1 : list event)
    (earlier : list State.t) (msg : State.t) :
  primary_estimator self0 = "ukf2d" →
  start_estimator_subprocess_cmds self0 E tr0 = (tr, Returns self) →
  ∃ tr2 self1 self2 out,
    for_ earlier state_callback self E tr1 = (tr2, Returns self1)
    ∧ state_callback self1 msg E tr2
      = (tr2 ++ [EvPublish (state_pub self0) out], Returns self2)
    ∧ state_msg self2 = out
    ∧ State.x out = 0%float ∧ State.y out = 0%float
    ∧ State.vel_x out = 0%float ∧ State.vel_y out = 0%float.
Proof.
  intros Hu Hstart.
  apply start_estimator_subprocess_cmds_returns in Hstart as [Hself _].
  rewrite decide_True in Hself by done.
  destruct (primary_messages_keep_cache earlier E self tr1)
    as (tr2 & self1 & Hfor & Hu1 & Hc1 & Hpub); [by rewrite Hself..|].
  destruct (state_callback_publishes E tr2 self1 msg State.new)
    as (out & Hrun & _ & Hxy & _).
  { by rewrite decide_True. }
  exists tr2, self1, (set_state_msg out self1), out.
  split; [done|]. split.
  - rewrite Hrun, Hpub, Hself. reflexivity.
  - split; [done|]. exact Hxy.
Qed.

Lemma ukf2d_before_aux_publishes_zero_witness :
  ∃ tr2 self1 self2 out,
    for_ [ukf_sample] state_callback
      (set_processes
         [("python StateEstimators/student_state_estimator_ukf_2d.py --ir_throttled --imu_throttled", 0%nat);
          ("python StateEstimators/state_estimator_ema.py", 1%nat)]
         ukf2d_coordinator) quiet []
      = (tr2, Returns self1)
    ∧ state_callback self1 ukf_sample quiet tr2
      = (tr2 ++ [EvPublish "/pidrone/state" out], Returns self2)
    ∧ state_msg self2 = out
    ∧ State.x out = 0%float ∧ State.y out = 0%float
    ∧ State.vel_x out = 0%float ∧ State.vel_y out = 0%float.
Proof.
  eapply (ukf2d_before_aux_publishes_zero
            (attributes "ukf2d" None 1 "/pidrone/state") _ quiet [] _ []
            [ukf_sample] ukf_sample).
  - reflexivity.
  - vm_compute. reflexivity.
Defined.

(** ** What a computation can emit *)

Create HintDb emits discriminated.

Section EmitsOnly.
Context (P : event → Prop).

Lemma emits_only_mret {A} (a : A) : emits_only P (mret a).
Proof. intros E tr. exists []. by rewrite app_nil_r. Qed.

Lemma emits_only_raise {A} (e : exn) : emits_only P (@raise A e).
Proof. intros E tr. exists []. by rewrite app_nil_r. Qed.

Lemma emits_only_bind {A B} (m : M A) (f : A → M B) :
  emits_only P m → (∀ a, emits_only P (f a)) → emits_only P (m ≫= f).
Proof.
  intros Hm Hf E tr. rewrite bind_run.
  destruct (Hm E tr) as (evs & Htr & Hevs).
  destruct (m E tr) as [tr1 [a|e]]; cbn in Htr; subst tr1.
  - destruct (Hf a E (tr ++ evs)) as (evs' & -> & Hevs').
    exists (evs ++ evs'). rewrite app_assoc. split; [done|].
    by apply Forall_app.
  - by exists evs.
Qed.

Lemma emits_only_for {A S} (xs : list A) (body : S → A → M S) :
  (∀ s x, emits_only P (body s x)) → ∀ s, emits_only P (for_ xs body s).
Proof.
  intros Hbody. induction xs as [|x xs IH]; intros s; cbn.
  - apply emits_only_mret.
  - apply emits_only_bind; [apply Hbody|apply IH].
Qed.

Lemma emits_only_emit ev : P ev → emits_only P (emit ev).
Proof. intros Hev E tr. exists [ev]. split; [done|]. by apply Forall_singleton. Qed.

Lemma emits_only_Popen cmd :
  (∀ r, P (EvPopen cmd r)) → emits_only P (subprocess_Popen cmd).
Proof.
  intros Hev E tr. unfold subprocess_Popen.
  destruct (Popen_raises E _); eexists [_]; (split; [done|]);
    by apply Forall_singleton.
Qed.

Lemma emits_only_init_node name :
  (∀ r, P (EvInitNode name r)) → emits_only P (rospy_init_node name).
Proof.
  intros Hev E tr. unfold rospy_init_node.
  destruct (init_node_raises E); eexists [_]; (split; [done|]);
    by apply Forall_singleton.
Qed.

Lemma emits_only_spin : (∀ r, P (EvSpin r)) → emits_only P rospy_spin.
Proof.
  intros Hev E tr. unfold rospy_spin.
  destruct (spin_raises E); eexists [_]; (split; [done|]);
    by apply Forall_singleton.
Qed.

Lemma emits_only_terminate p :
  (∀ r, P (EvTerminate p r)) → emits_only P (terminate p).
Proof.
  intros Hev E tr. unfold terminate.
  destruct (terminate_raises E p); eexists [_]; (split; [done|]);
    by apply Forall_singleton.
Qed.

End EmitsOnly.

#[local] Hint Resolve emits_only_mret emits_only_raise emits_only_emit
  emits_only_Popen emits_only_init_node emits_only_spin emits_only_terminate
  : emits.

Ltac emits :=
  repeat first
    [ apply emits_only_bind; [|intros]
    | apply emits_only_for; intros
    | progress (unfold print, rospy_Publisher, rospy_Subscriber, publish,
                getitem, get_ukf_topic)
    | case_decide
    | case_match
    | solve [auto with emits] ].

Lemma construct_emits_no_terminate args :
  emits_only (λ ev, is_terminate ev = false) (construct args).
Proof.
  unfold construct, __init__, start_estimator_subprocess_cmds, other_process_cmds,
    start_processes, initialize_ros.
  emits.
Qed.

Lemma until_failure_prefix E processes :
  (until_failure E processes).1 `prefix_of` processes.*2.
Proof.
  induction processes as [|[name p] ps IH]; cbn; [done|].
  destruct (terminate_raises E p).
  - cbn. by apply prefix_cons, prefix_nil.
  - destruct (until_failure E ps). cbn in *. by apply prefix_cons.
Qed.

Lemma until_failure_none E processes :
  (∀ p, p ∈ processes.*2 → terminate_raises E p = None) →
  until_failure E processes = (processes.*2, None).
Proof.
  induction processes as [|[name p] ps IH]; cbn; intros Hok; [done|].
  rewrite Hok by left. rewrite IH; [done|].
  intros q Hq. apply Hok. by right.
Qed.

Lemma until_failure_some E processes e :
  (until_failure E processes).2 = Some e →
  ∃ p, last (until_failure E processes).1 = Some p
       ∧ terminate_raises E p = Some e.
Proof.
  induction processes as [|[name p] ps IH]; cbn; [done|].
  destruct (terminate_raises E p) eqn:Hp.
  - cbn. intros [= ->]. by exists p.
  - destruct (until_failure E ps) as [attempts failure] eqn:Hu. cbn in *.
    intros Hf. destruct (IH Hf) as (q & Hlast & Hq). exists q. split; [|done].
    destruct attempts; [done|]. by rewrite last_cons, Hlast.
Qed.

Lemma terminate_processes_run processes E : ∀ tr,
  ∃ tr',
    terminate_processes processes E tr
      = (tr', outcome (until_failure E processes).2)
    ∧ terminate_attempts tr'
      = terminate_attempts tr ++ (until_failure E processes).1
    ∧ launched tr' = launched tr.
Proof.
  unfold terminate_processes.
  induction processes as [|[name p] ps IH]; intros tr.
  - exists tr. by rewrite app_nil_r.
  - cbn [for_ until_failure]. rewrite bind_run. cbn beta iota.
    rewrite bind_run. unfold print at 1, emit at 1, terminate at 1.
    destruct (terminate_raises E p) as [e|].
    + eexists. split; [done|].
      rewrite !terminate_attempts_app, !launched_app. cbn.
      by rewrite !app_nil_r.
    + destruct (IH ((tr ++ [EvPrint ("Terminating: " +:+ name)])
                      ++ [EvTerminate p (Returns ())]))
        as (tr' & -> & Hatt & Hl).
      exists tr'. destruct (until_failure E ps) as [attempts failure].
      split; [done|]. rewrite Hatt, Hl.
      rewrite !terminate_attempts_app, !launched_app. cbn.
      by rewrite !app_nil_r, <-?app_assoc.
Qed.

Section Main.
Context (args : Namespace.t) (E : env).

(** When the constructor returns, [se] is bound and the [finally] block
    runs on it. *)
Lemma main_constructed tr tr1 se :
  construct args E tr = (tr1, Returns se) →
  main args E tr = main_finally (Some se) E tr1.
Proof.
  intros Hc. unfold main, try_finally, try_except. rewrite bind_run.
  rewrite Hc. cbn. by destruct (main_finally _ _ _) as [? []].
Qed.

(** When the constructor raises, [se] is unbound: the [finally] block
    prints its first line and raises on [se.processes], before any
    [terminate]. *)
Lemma main_constructor_raises tr tr1 e :
  construct args E tr = (tr1, Raises e) →
  main args E tr
  = ((if is_Exception e then tr1 ++ [EvPrint (str_exn e)] else tr1)
       ++ [EvPrint "Terminating subprocess calls..."],
     Raises (UnboundLocalError
               "local variable 'se' referenced before assignment")).
Proof.
  intros Hc. unfold main, try_finally, try_except. rewrite bind_run.
  rewrite Hc. by destruct (is_Exception e).
Qed.

(** The object the constructor returns tracks the launched processes,
    each under a handle of its own, and no [terminate] has been called
    yet. *)
Lemma constructed_tracks_launched tr1 se :
  run (construct args) E = (tr1, Returns se) →
  processes se = launched tr1
  ∧ NoDup (processes se).*2
  ∧ terminate_attempts tr1 = [].
Proof.
  intros Hc.
  cut ((processes se = launched tr1 ∧ NoDup (processes se).*2)
       ∧ terminate_attempts tr1 = []); [tauto|]. split.
  - revert Hc. unfold run, construct, __init__, rospy_Publisher, emit.
    rewrite !bind_run. cbn -[attributes]. rewrite bind_run.
    match goal with
    | |- context [start_estimator_subprocess_cmds ?s E ?t] =>
        destruct (start_estimator_subprocess_cmds s E t)
          as [tr2 [self|e]] eqn:Hs; [|discriminate]
    end.
    apply start_estimator_subprocess_cmds_returns
      in Hs as (_ & Htrack & cmds & Hnew).
    unfold initialize_ros, rospy_init_node, rospy_spin. rewrite !bind_run.
    destruct (init_node_raises E); [discriminate|].
    destruct (spin_raises E); [discriminate|]. cbn.
    intros [= <- <-]. rewrite !launched_app. cbn. rewrite !app_nil_r.
    split; [by apply Htrack|].
    rewrite Hnew. cbn. rewrite snd_zip by by rewrite length_seq.
    apply NoDup_seq.
  - destruct (construct_emits_no_terminate args E []) as (evs & Htr & Hevs).
    unfold run in Hc. rewrite Hc in Htr. cbn in Htr.
    subst tr1. clear Hc. induction Hevs as [|ev evs Hev _ IH]; [done|].
    destruct ev; done.
Qed.

End Main.

(** How [main] ends once the coordinator has been constructed: the
    [finally] loop makes the attempts of [until_failure] on the tracked
    processes, which are the launched ones, and [main] ends the way the
    loop does. *)
Lemma main_shutdown (args : Namespace.t) (E : env)
    (tr1 : list event) (se : StateEstimator) :
  run (construct args) E = (tr1, Returns se) →
  ∃ tr2,
    run (main args) E = (tr2, outcome (until_failure E (processes se)).2)
    ∧ launched tr2 = processes se
    ∧ NoDup (processes se).*2
    ∧ terminate_attempts tr2 = (until_failure E (processes se)).1.
Proof.
  intros Hc. unfold run. rewrite (main_constructed args E [] tr1 se Hc).
  apply constructed_tracks_launched in Hc as (Htrack & Hdistinct & Hnone).
  unfold main_finally. rewrite bind_run. unfold print at 1, emit at 1.
  cbn beta iota. rewrite bind_run. cbn [mret M_ret]. rewrite bind_run.
  destruct (terminate_processes_run (processes se) E
              (tr1 ++ [EvPrint "Terminating subprocess calls..."]))
    as (tr' & Hrun & Hatt & Hl).
  rewrite Hrun. rewrite terminate_attempts_app, Hnone in Hatt.
  rewrite launched_app, <-Htrack in Hl. cbn in Hatt, Hl.
  rewrite app_nil_r in Hl.
  destruct (until_failure E (processes se)) as [attempts [e|]]; cbn.
  - by exists tr'.
  - exists (tr' ++ [EvPrint "Done."]).
    rewrite launched_app, terminate_attempts_app, Hl, Hatt. cbn.
    by rewrite !app_nil_r.
Qed.

(** The normal exit: when the constructor returns and no [terminate]
    raises, every launched process gets one attempt, in launch order, and
    [main] returns. *)
Lemma normal_exit_terminates_every_process (args : Namespace.t) (E : env)
    (tr1 : list event) (se : StateEstimator) :
  run (construct args) E = (tr1, Returns se) →
  (∀ p, terminate_raises E p = None) →
  ∃ tr2,
    run (main args) E = (tr2, Returns ())
    ∧ terminate_attempts tr2 = (launched tr2).*2
    ∧ NoDup (terminate_attempts tr2).
Proof.
  intros Hc Hok.
  destruct (main_shutdown args E tr1 se Hc) as (tr2 & Hrun & Hl & Hd & Ha).
  rewrite until_failure_none in Hrun, Ha by auto.
  exists tr2. by rewrite Ha, Hl.
Qed.

(** When the constructor raises, [main] ends with the [UnboundLocalError]
    of the [finally] block: nothing more is launched and no [terminate] is
    called. *)
Lemma constructor_error_skips_shutdown (args : Namespace.t) (E : env)
    (tr1 : list event) (e : exn) :
  run (construct args) E = (tr1, Raises e) →
  ∃ tr2,
    run (main args) E
    = (tr2, Raises (UnboundLocalError
                      "local variable 'se' referenced before assignment"))
    ∧ launched tr2 = launched tr1
    ∧ terminate_attempts tr2 = [].
Proof.
  intros Hc. unfold run. rewrite (main_constructor_raises args E [] tr1 e Hc).
  eexists. split; [done|].
  destruct (construct_emits_no_terminate args E []) as (evs & Htr & Hevs).
  unfold run in Hc. rewrite Hc in Htr. cbn in Htr. subst tr1.
  assert (terminate_attempts evs = []) as Hnone.
  { clear Hc. induction Hevs as [|ev evs Hev _ IH]; [done|]. by destruct ev. }
  destruct (is_Exception e);
    rewrite !launched_app, !terminate_attempts_app, Hnone; cbn;
    by rewrite ?app_nil_r.
Qed.

(** ** The claims on the coordinator's lifetime *)

(** C5, as stated, fails: when the first of two processes refuses to
    terminate, the second gets no attempt and the failure ends [main]. *)
Lemma shutdown_failure_is_not_caught :
  ¬ spec_shutdown_catches_failures ukf2d_args first_refuses.
Proof.
  unfold spec_shutdown_catches_failures.
  assert (run (main ukf2d_args) first_refuses
          = ((run (main ukf2d_args) first_refuses).1,
             Raises (OSError "[Errno 3] No such process"))) as ->.
  { by vm_compute. }
  intros [_ Hr]. by apply (Hr 0%nat (OSError "[Errno 3] No such process")).
Qed.

(** C5, amended: once the coordinator has been constructed, the shutdown
    calls [terminate] on the tracked processes in launch order, up to and
    including the first one whose [terminate] raises; that exception is
    not caught, [main] ends with it, and the processes after it get no
    attempt. When no [terminate] raises, every tracked process gets one
    attempt and [main] returns. *)
Theorem shutdown_stops_at_first_failure (args : Namespace.t) (E : env)
    (tr1 : list event) (se : StateEstimator) :
  run (construct args) E = (tr1, Returns se) →
  ∃ tr2,
    run (main args) E = (tr2, outcome (until_failure E (processes se)).2)
    ∧ launched tr2 = processes se
    ∧ NoDup (processes se).*2
    ∧ terminate_attempts tr2 = (until_failure E (processes se)).1
    ∧ terminate_attempts tr2 `prefix_of` (processes se).*2
    ∧ ((∀ p, p ∈ (processes se).*2 → terminate_raises E p = None) →
       run (main args) E = (tr2, Returns ())
       ∧ terminate_attempts tr2 = (processes se).*2).
Proof.
  intros Hc.
  destruct (main_shutdown args E tr1 se Hc) as (tr2 & Hrun & Hl & Hd & Ha).
  exists tr2. do 4 (split; [done|]). split.
  - rewrite Ha. apply until_failure_prefix.
  - intros Hok. rewrite Hrun, Ha, (until_failure_none E _ Hok). done.
Qed.

Lemma shutdown_stops_at_first_failure_witness :
  ∃ tr2,
    run (main ukf2d_args) first_refuses
    = (tr2, Raises (OSError "[Errno 3] No such process"))
    ∧ launched tr2
      = [("python StateEstimators/student_state_estimator_ukf_2d.py --ir_throttled --imu_throttled", 0%nat);
         ("python StateEstimators/state_estimator_ema.py", 1%nat)]
    ∧ NoDup [0%nat; 1%nat]
    ∧ terminate_attempts tr2 = [0%nat]
    ∧ terminate_attempts tr2 `prefix_of` [0%nat; 1%nat]
    ∧ ((∀ p, p ∈ [0%nat; 1%nat] → terminate_raises first_refuses p = None) →
       run (main ukf2d_args) first_refuses = (tr2, Returns ())
       ∧ terminate_attempts tr2 = [0%nat; 1%nat]).
Proof.
  eapply (shutdown_stops_at_first_failure ukf2d_args first_refuses _
            (set_processes
               [("python StateEstimators/student_state_estimator_ukf_2d.py --ir_throttled --imu_throttled", 0%nat);
                ("python StateEstimators/state_estimator_ema.py", 1%nat)]
               ukf2d_coordinator)).
  vm_compute. reflexivity.
Defined.

(** C1 fails on the code: with the default command line, when
    [rospy.init_node] raises after the EMA process has been started,
    [main] prints the error, enters the [finally] block with [se] unbound
    and ends on [se.processes]; the launched process gets no termination
    attempt. *)
Theorem setup_error_leaves_process_running :
  run (main default_args) init_node_interrupted
  = ([EvPublisher "/pidrone/state";
      EvSubscriber "/pidrone/state/ema" Method_state_callback;
      EvPrint "Starting: python StateEstimators/state_estimator_ema.py";
      EvPopen "python StateEstimators/state_estimator_ema.py" (Returns 0%nat);
      EvInitNode "state_estimator"
        (Raises (ROSException "init_node interrupted before it could complete"));
      EvPrint "init_node interrupted before it could complete";
      EvPrint "Terminating subprocess calls..."],
     Raises (UnboundLocalError
               "local variable 'se' referenced before assignment"))
  ∧ launched (run (main default_args) init_node_interrupted).1
    = [("python StateEstimators/state_estimator_ema.py", 0%nat)]
  ∧ terminate_attempts (run (main default_args) init_node_interrupted).1 = [].
Proof. by vm_compute. Qed.

(** ** The claims on the launch commands *)

(** What [append_throttle_flags] appends, by estimator: it depends on the
    estimator's id and on nothing else. *)
Lemma append_throttle_flags_by_estimator primary others sdim pub cmd :
  let self := attributes primary others sdim pub in
  append_throttle_flags self cmd "ema" = cmd
  ∧ append_throttle_flags self cmd "simulator" = cmd
  ∧ append_throttle_flags self cmd "ukf2d"
    = (cmd +:+ " --ir_throttled") +:+ " --imu_throttled"
  ∧ append_throttle_flags self cmd "ukf7d"
    = (((cmd +:+ " --ir_throttled") +:+ " --imu_throttled")
         +:+ " --optical_flow_throttled") +:+ " --camera_pose_throttled".
Proof. repeat split. Qed.

(** C3 fails on the code: for primary 'ema' and others ['ema', 'ukf7d'],
    whatever the other arguments, three processes are launched when
    nothing raises, two of them with the EMA command. *)
Theorem duplicate_primary_is_launched_twice
    (ir_throttled imu_throttled optical_flow_throttled
       camera_pose_throttled : bool) (sdim : Z) :
  (launched
     (run (main (Namespace.mk "ema" (Some ["ema"; "ukf7d"])
                   ir_throttled imu_throttled optical_flow_throttled
                   camera_pose_throttled sdim)) quiet).1).*1
  = ["python StateEstimators/state_estimator_ema.py";
     "python StateEstimators/state_estimator_ema.py";
     "python StateEstimators/student_state_estimator_ukf_7d.py --ir_throttled --imu_throttled --optical_flow_throttled --camera_pose_throttled"].
Proof. by vm_compute. Qed.

(** C4 fails on the code: with 'ukf7d' and none of the four throttle
    flags requested, the launch command still carries all four. *)
Theorem unrequested_flags_are_appended :
  (launched
     (run (main (Namespace.mk "ukf7d" None false false false false 1))
        quiet).1).*1
  = ["python StateEstimators/student_state_estimator_ukf_7d.py --ir_throttled --imu_throttled --optical_flow_throttled --camera_pose_throttled"].
Proof. by vm_compute. Qed.

(** The part of C4 the code does satisfy: with all four flags requested,
    the 'ukf7d' command carries the four flags in the order ir, imu,
    optical flow, camera pose, and the 'ema' command carries none. *)
Lemma all_flags_requested :
  (launched
     (run (main (Namespace.mk "ukf7d" (Some ["ema"]) true true true true 1))
        quiet).1).*1
  = ["python StateEstimators/student_state_estimator_ukf_7d.py --ir_throttled --imu_throttled --optical_flow_throttled --camera_pose_throttled";
     "python StateEstimators/state_estimator_ema.py"].
Proof. by vm_compute. Qed.


(** * Further properties *)

(** ** The launch plan on known ids *)

(** A property of the four ids holds of every id of [arg_choices]. *)
Lemma arg_choices_cases (P : string → Prop) :
  P "ema" → P "ukf2d" → P "ukf7d" → P "simulator" →
  ∀ id, id ∈ arg_choices → P id.
Proof.
  intros ???? id Hid. unfold arg_choices in Hid.
  repeat (apply elem_of_cons in Hid as [->|Hid]; [done|]).
  by apply elem_of_nil in Hid.
Qed.

Lemma has_registry_attributes primary others sdim pub :
  has_registry sdim (attributes primary others sdim pub).
Proof. by repeat split. Qed.

(** The command table has the four ids of [arg_choices] and no other
    key. *)
Lemma lookup_unknown sdim self id :
  has_registry sdim self → id ∉ arg_choices →
  process_cmds_dict self !! id = None.
Proof.
  intros [-> _] Hid. cbn.
  rewrite !lookup_insert_ne, lookup_singleton_ne; [done|..];
    intros <-; apply Hid; unfold arg_choices;
    repeat first [by left | right].
Qed.

(** For an id of [arg_choices], the table entry with the throttle flags
    appended is the command of [launch_command]. *)
Lemma lookup_known sdim self id :
  has_registry sdim self → id ∈ arg_choices →
  ∃ base,
    process_cmds_dict self !! id = Some base
    ∧ append_throttle_flags self base id = launch_command sdim id.
Proof.
  intros (Hd & Hir & Himu & Hof & Hcp). unfold append_throttle_flags.
  rewrite Hd, Hir, Himu, Hof, Hcp. revert id.
  apply arg_choices_cases; eexists; (split; [reflexivity|]); reflexivity.
Qed.

(** No id of [arg_choices] is itself a launch command. *)
Lemma id_is_no_command sdim id id' :
  id ∈ arg_choices → id' ∈ arg_choices → id ≠ launch_command sdim id'.
Proof.
  intros Hid Hid'. revert id' Hid'.
  apply arg_choices_cases; revert id Hid; apply arg_choices_cases; done.
Qed.

(** With ids of [arg_choices] only, the guard of the first loop never
    finds its estimator among the commands: every entry adds a command,
    and nothing outside is called. *)
Lemma other_process_cmds_known sdim self others E tr :
  has_registry sdim self →
  Forall (.∈ arg_choices) others →
  ∀ ids,
    Forall (.∈ arg_choices) ids →
    other_process_cmds self others (launch_command sdim <$> ids) E tr
    = (tr, Returns (launch_command sdim <$> (ids ++ others))).
Proof.
  intros Hreg Hothers. unfold other_process_cmds.
  induction Hothers as [|o others Ho _ IH]; intros ids Hids; cbn [for_].
  - by rewrite app_nil_r.
  - rewrite bind_run. rewrite decide_True.
    2:{ intros (id' & Heq & Hid')%list_elem_of_fmap.
        apply (id_is_no_command sdim o id'); [done| |done].
        by eapply Forall_forall in Hids. }
    destruct (lookup_known sdim self o Hreg Ho) as (base & Hl & Hc).
    unfold getitem. rewrite Hl, bind_run. cbn [mret M_ret]. rewrite Hc.
    replace (_ ++ [launch_command sdim o])
      with (launch_command sdim <$> (ids ++ [o])) by by rewrite fmap_app.
    rewrite IH; [by rewrite <-app_assoc|].
    apply Forall_app. split; [done|]. by apply Forall_singleton.
Qed.

(** The rest of [start_estimator_subprocess_cmds], after the wiring. *)
Lemma collect_and_start sdim self ids E tr :
  has_registry sdim self →
  Forall (.∈ arg_choices) ids →
  Forall (.∈ arg_choices) (default [] (other_estimators self)) →
  (match other_estimators self with
   | Some others =>
       other_process_cmds self others (launch_command sdim <$> ids)
   | None => mret (launch_command sdim <$> ids)
   end ≫= λ process_cmds, start_processes process_cmds self) E tr
  = start_processes
      (launch_command sdim <$> (ids ++ default [] (other_estimators self)))
      self E tr.
Proof.
  intros Hreg Hids Hothers. rewrite bind_run.
  destruct (other_estimators self) as [others|]; cbn [default].
  - by rewrite (other_process_cmds_known sdim self others E tr Hreg Hothers).
  - cbn in Hothers |- *. by rewrite app_nil_r.
Qed.

(** [start_estimator_subprocess_cmds] up to the end of the wiring, for a
    primary estimator of [arg_choices]. *)
Lemma start_estimator_subprocess_cmds_wired primary others sdim pub E tr :
  primary ∈ arg_choices →
  let self := wire primary (attributes primary others sdim pub) in
  start_estimator_subprocess_cmds (attributes primary others sdim pub) E tr
  = (match others with
     | Some others =>
         other_process_cmds self others
           (launch_command sdim <$> primary_ids primary)
     | None => mret (launch_command sdim <$> primary_ids primary)
     end ≫= λ process_cmds, start_processes process_cmds self)
      E (tr ++ wiring primary).
Proof.
  intros Hp.
  destruct (lookup_known sdim _ primary
              (has_registry_attributes primary others sdim pub) Hp)
    as (base & Hl & Hc).
  unfold start_estimator_subprocess_cmds.
  rewrite bind_run. unfold getitem at 1.
  change (primary_estimator (attributes primary others sdim pub)) with primary.
  rewrite Hl. cbn [mret M_ret]. rewrite Hc. clear Hl Hc.
  rewrite bind_run.
  unfold arg_choices in Hp.
  repeat (apply elem_of_cons in Hp as [->|Hp]); [..|by apply elem_of_nil in Hp].
  - rewrite 2!decide_False, decide_True by done.
    unfold rospy_Subscriber, emit. rewrite bind_run. cbn [mret M_ret].
    reflexivity.
  - rewrite decide_True by done.
    assert (process_cmds_dict (attributes "ukf2d" others sdim pub) !! "ema"
            = Some (launch_command sdim "ema")) as Hema by reflexivity.
    assert (ukf_topics (set_ema_state_msg State.new
                          (attributes "ukf2d" others sdim pub)) !! 2
            = Some "/pidrone/state/ukf_2d") as Hukf by reflexivity.
    unfold getitem, get_ukf_topic, rospy_Subscriber, emit.
    rewrite Hema, Hukf. do 4 (rewrite bind_run; cbn [mret M_ret]).
    rewrite <-(app_assoc tr [_] [_]). reflexivity.
  - rewrite decide_False, decide_True by done.
    assert (ukf_topics (attributes "ukf7d" others sdim pub) !! 7
            = Some "/pidrone/state/ukf_7d") as Hukf by reflexivity.
    unfold get_ukf_topic, rospy_Subscriber, emit.
    rewrite Hukf. do 2 (rewrite bind_run; cbn [mret M_ret]).
    reflexivity.
  - rewrite 3!decide_False, decide_True by done.
    unfold rospy_Subscriber, emit. rewrite bind_run. cbn [mret M_ret].
    reflexivity.
Qed.

Lemma has_registry_wire sdim primary self :
  has_registry sdim self → has_registry sdim (wire primary self).
Proof. unfold wire. by case_decide. Qed.

Lemma primary_ids_known primary :
  primary ∈ arg_choices → Forall (.∈ arg_choices) (primary_ids primary).
Proof.
  intros Hp. unfold primary_ids. case_decide.
  - apply Forall_cons. split; [|apply Forall_singleton];
      unfold arg_choices; repeat first [by left | right].
  - by apply Forall_singleton.
Qed.

(** On ids of [arg_choices], [start_estimator_subprocess_cmds] is the
    wiring followed by the launch loop on [launch_command] of the ids. *)
Lemma start_estimator_subprocess_cmds_known primary others sdim pub E tr :
  primary ∈ arg_choices →
  Forall (.∈ arg_choices) (default [] others) →
  start_estimator_subprocess_cmds (attributes primary others sdim pub) E tr
  = start_processes
      (launch_command sdim <$> (primary_ids primary ++ default [] others))
      (wire primary (attributes primary others sdim pub))
      E (tr ++ wiring primary).
Proof.
  intros Hp Hothers.
  rewrite start_estimator_subprocess_cmds_wired by done.
  assert (other_estimators (wire primary (attributes primary others sdim pub))
          = others) as Hoe.
  { unfold wire. by case_decide. }
  pose proof (collect_and_start sdim
                (wire primary (attributes primary others sdim pub))
                (primary_ids primary) E (tr ++ wiring primary)) as Hrun.
  rewrite Hoe in Hrun. apply Hrun; [|by apply primary_ids_known|done].
  apply has_registry_wire, has_registry_attributes.
Qed.

Lemma subscriptions_app tr1 tr2 :
  subscriptions (tr1 ++ tr2) = subscriptions tr1 ++ subscriptions tr2.
Proof. apply omap_app. Qed.

(** The launch loop, whether it completes or not: it starts the processes
    of [launch_until_failure], appends them to [self.processes] when it
    returns, and neither subscribes nor terminates. *)
Lemma start_processes_run cmds E : ∀ self tr,
  ∃ tr',
    start_processes cmds self E tr
    = (tr',
       match (launch_until_failure E (Popen_calls tr) cmds).2 with
       | Some e => Raises e
       | None =>
           Returns
             (set_processes
                (processes self
                   ++ (launch_until_failure E (Popen_calls tr) cmds).1) self)
       end)
    ∧ launched tr'
      = launched tr ++ (launch_until_failure E (Popen_calls tr) cmds).1
    ∧ subscriptions tr' = subscriptions tr
    ∧ terminate_attempts tr' = terminate_attempts tr.
Proof.
  unfold start_processes.
  induction cmds as [|p cmds IH]; intros self tr.
  - exists tr. cbn. by rewrite !app_nil_r, set_processes_same.
  - cbn [for_ launch_until_failure]. rewrite bind_run.
    unfold print at 1, emit at 1. rewrite bind_run.
    unfold subprocess_Popen at 1. rewrite bind_run. cbn beta.
    rewrite Popen_calls_app.
    change (Popen_calls [EvPrint ("Starting: " +:+ p)]) with 0%nat.
    rewrite Nat.add_0_r.
    destruct (Popen_raises E (Popen_calls tr)) as [e|].
    + eexists. split; [done|]. cbn.
      rewrite !launched_app, !subscriptions_app, !terminate_attempts_app.
      cbn. by rewrite !app_nil_r.
    + cbn [mret M_ret]. 
      edestruct IH as (tr' & Hrun & Hl & Hs & Ht).
      rewrite Hrun. clear Hrun.
      rewrite !Popen_calls_app in Hl |- *.
      rewrite !launched_app, !subscriptions_app, !terminate_attempts_app in *.
      cbn in Hl, Hs, Ht |- *.
      rewrite !app_nil_r, ?Nat.add_0_r, ?Nat.add_1_r in *.
      destruct (launch_until_failure E (S (Popen_calls tr)) cmds)
        as [started failure].
      exists tr'. cbn in *. rewrite <-!app_assoc in *. by destruct failure.
Qed.

Lemma subscriptions_wiring primary :
  subscriptions (wiring primary) = topology primary.
Proof.
  unfold wiring. generalize (topology primary).
  induction l as [|[topic callback] l IH]; [done|]. cbn. by f_equal.
Qed.

Lemma wiring_launches_nothing primary :
  launched (wiring primary) = [] ∧ terminate_attempts (wiring primary) = []
  ∧ Popen_calls (wiring primary) = 0%nat.
Proof.
  unfold wiring. generalize (topology primary).
  induction l as [|[topic callback] l IH]; [done|]. apply IH.
Qed.

(** The constructor on ids of [arg_choices]: what it launches, what it
    subscribes to, and how it ends. *)
Lemma construct_known (args : Namespace.t) (E : env) :
  Namespace.primary args ∈ arg_choices →
  Forall (.∈ arg_choices) (default [] (Namespace.others args)) →
  let cmds :=
    launch_command (Namespace.sdim args)
      <$> (primary_ids (Namespace.primary args)
             ++ default [] (Namespace.others args)) in
  let started := (launch_until_failure E 0 cmds).1 in
  ∃ tr,
    run (construct args) E
    = (tr,
       match (launch_until_failure E 0 cmds).2 with
       | Some e => Raises e
       | None =>
           match init_node_raises E with
           | Some e => Raises e
           | None =>
               match spin_raises E with
               | Some e => Raises e
               | None =>
                   Returns
                     (set_processes started
                        (wire (Namespace.primary args)
                           (attributes (Namespace.primary args)
                              (Namespace.others args) (Namespace.sdim args)
                              "/pidrone/state")))
               end
           end
       end)
    ∧ launched tr = started
    ∧ subscriptions tr = topology (Namespace.primary args)
    ∧ terminate_attempts tr = [].
Proof.
  intros Hp Hothers cmds started.
  unfold run, construct, __init__, rospy_Publisher, emit.
  rewrite !bind_run. cbn [mret M_ret]. rewrite bind_run.
  rewrite start_estimator_subprocess_cmds_known by done.
  fold cmds.
  destruct (wiring_launches_nothing (Namespace.primary args))
    as (Hwl & Hwt & Hwn).
  assert (processes (wire (Namespace.primary args)
                       (attributes (Namespace.primary args)
                          (Namespace.others args) (Namespace.sdim args)
                          "/pidrone/state")) = []) as Hnone.
  { unfold wire. by case_decide. }
  destruct (start_processes_run cmds E
              (wire (Namespace.primary args)
                 (attributes (Namespace.primary args)
                    (Namespace.others args) (Namespace.sdim args)
                    "/pidrone/state"))
              ([EvPublisher "/pidrone/state"]
                 ++ wiring (Namespace.primary args)))
    as (tr' & Hrun & Hl & Hs & Ht).
  assert (Popen_calls [EvPublisher "/pidrone/state"] + 0 = 0)%nat as Hzero
    by reflexivity.
  rewrite Popen_calls_app, Hwn, Hzero, Hnone, app_nil_l in Hrun.
  rewrite Popen_calls_app, Hwn, Hzero, launched_app, Hwl in Hl.
  rewrite subscriptions_app, subscriptions_wiring in Hs.
  rewrite terminate_attempts_app, Hwt in Ht.
  change (launched tr' = started) in Hl.
  change (subscriptions tr' = topology (Namespace.primary args)) in Hs.
  change (terminate_attempts tr' = []) in Ht.
  change ([] ++ [EvPublisher "/pidrone/state"])
    with [EvPublisher "/pidrone/state"].
  rewrite Hrun. clear Hrun Hzero. fold started.
  destruct (launch_until_failure E 0 cmds).2 as [e|]; [by exists tr'|].
  unfold initialize_ros, rospy_init_node, rospy_spin. rewrite !bind_run.
  destruct (init_node_raises E) as [e|].
  { eexists. split; [done|].
    rewrite !launched_app, !subscriptions_app, !terminate_attempts_app.
    cbn. by rewrite !app_nil_r. }
  destruct (spin_raises E) as [e|].
  all: eexists; (split; [done|]);
    rewrite !launched_app, !subscriptions_app, !terminate_attempts_app;
    cbn; by rewrite !app_nil_r.
Qed.

(** The launch loop when no [Popen] raises, when the [k]-th is the first
    to raise, and when it is known to have completed. *)
Lemma launch_until_failure_ok E cmds : ∀ n,
  (∀ i, (i < length cmds)%nat → Popen_raises E (n + i) = None) →
  launch_until_failure E n cmds = (zip cmds (seq n (length cmds)), None).
Proof.
  induction cmds as [|p cmds IH]; intros n Hok; [done|]. cbn.
  rewrite <-(Nat.add_0_r n) at 1. rewrite Hok by (cbn; lia).
  rewrite IH; [done|]. intros i Hi.
  replace (S n + i)%nat with (n + S i)%nat by lia. apply Hok. cbn. lia.
Qed.

Lemma launch_until_failure_fails E cmds e : ∀ n k,
  (k < length cmds)%nat →
  (∀ i, (i < k)%nat → Popen_raises E (n + i) = None) →
  Popen_raises E (n + k) = Some e →
  launch_until_failure E n cmds = (zip (take k cmds) (seq n k), Some e).
Proof.
  induction cmds as [|p cmds IH]; intros n k Hk Hok He; cbn in Hk; [lia|].
  destruct k as [|k]; cbn.
  - rewrite Nat.add_0_r in He. by rewrite He.
  - rewrite <-(Nat.add_0_r n) at 1. rewrite Hok by lia.
    rewrite (IH (S n) k); [done|lia|..].
    + intros i Hi. replace (S n + i)%nat with (n + S i)%nat by lia.
      apply Hok. lia.
    + by replace (S n + k)%nat with (n + S k)%nat by lia.
Qed.

Lemma launch_until_failure_none E cmds : ∀ n,
  (launch_until_failure E n cmds).2 = None →
  (launch_until_failure E n cmds).1 = zip cmds (seq n (length cmds)).
Proof.
  induction cmds as [|p cmds IH]; intros n; [done|]. cbn.
  destruct (Popen_raises E n); [done|].
  specialize (IH (S n)).
  destruct (launch_until_failure E (S n) cmds) as [started failure]. cbn in *.
  intros Hf. by rewrite IH.
Qed.


(** ** [main] as a whole *)

Lemma main_finally_emits_shutdown_events se :
  emits_only (λ ev, is_shutdown_event ev = true) (main_finally se).
Proof. unfold main_finally, terminate_processes. emits. Qed.

(** After the constructor, [main] only prints and terminates. *)
Lemma main_extends_construct (args : Namespace.t) (E : env) :
  ∃ evs,
    (run (main args) E).1 = (run (construct args) E).1 ++ evs
    ∧ Forall (λ ev, is_shutdown_event ev = true) evs.
Proof.
  unfold run. destruct (construct args E []) as [tr1 [se|e]] eqn:Hc.
  - rewrite (main_constructed args E [] tr1 se Hc).
    apply main_finally_emits_shutdown_events.
  - rewrite (main_constructor_raises args E [] tr1 e Hc). cbn [fst].
    destruct (is_Exception e).
    + exists [EvPrint (str_exn e); EvPrint "Terminating subprocess calls..."].
      rewrite <-app_assoc. split; [done|]. by repeat constructor.
    + exists [EvPrint "Terminating subprocess calls..."].
      split; [done|]. by repeat constructor.
Qed.

Lemma shutdown_events_are_silent evs :
  Forall (λ ev, is_shutdown_event ev = true) evs →
  launched evs = [] ∧ subscriptions evs = [] ∧ published evs = [].
Proof.
  induction 1 as [|ev evs Hev _ IH]; [done|]. by destruct ev.
Qed.

Lemma for_app {A S} (xs ys : list A) (body : S → A → M S) : ∀ s E tr,
  for_ (xs ++ ys) body s E tr
  = match for_ xs body s E tr with
    | (tr', Returns s') => for_ ys body s' E tr'
    | (tr', Raises e) => (tr', Raises e)
    end.
Proof.
  induction xs as [|x xs IH]; intros s E tr; [done|].
  cbn [app for_]. rewrite !bind_run.
  destruct (body s x E tr) as [tr1 [s1|e]]; [apply IH|done].
Qed.

(** X1: constructing a [StateEstimator] with a primary estimator that is
    not a key of the command table raises [KeyError] on that id at the
    first lookup: the publisher has been made, nothing is subscribed to
    and nothing is launched. (From the command line [argparse] lets no
    such id through; the class can be constructed with one.) *)
Theorem unknown_primary_starts_nothing (primary : string)
    (others : option (list string))
    (ir_throttled imu_throttled optical_flow_throttled
       camera_pose_throttled : bool) (sdim : Z)
    (E : env) (tr : list event) :
  primary ∉ arg_choices →
  __init__ primary others ir_throttled imu_throttled optical_flow_throttled
    camera_pose_throttled sdim E tr
  = (tr ++ [EvPublisher "/pidrone/state"], Raises (KeyError (KStr primary))).
Proof.
  intros Hp. unfold __init__, rospy_Publisher, emit.
  rewrite !bind_run. cbn [mret M_ret]. rewrite bind_run.
  unfold start_estimator_subprocess_cmds. rewrite bind_run.
  unfold getitem at 1.
  rewrite (lookup_unknown sdim _ primary);
    [done|apply has_registry_attributes|done].
Qed.

Lemma unknown_primary_starts_nothing_witness :
  __init__ "ukf3d" (Some ["ema"]) true false false false 2 quiet []
  = ([] ++ [EvPublisher "/pidrone/state"],
     Raises (KeyError (KStr "ukf3d"))).
Proof.
  apply (unknown_primary_starts_nothing "ukf3d" (Some ["ema"])
           true false false false 2 quiet []).
  intros Hin. apply list_elem_of_In in Hin. cbn in Hin.
  intuition congruence.
Defined.

(** X2: constructing a [StateEstimator] with a valid primary estimator
    and a list of others whose first entries are valid ids, followed by
    an entry that is neither a valid id nor literally one of the commands
    collected before it, raises [KeyError] on that entry after the
    subscriptions and before the first [Popen]: no process is started,
    not even the primary estimator's, because every command is collected
    before any is launched. (From the command line [argparse] lets no
    such entry through; the class can be constructed with one.) *)
Theorem unknown_other_starts_nothing (primary : string)
    (good : list string) (bad : string) (rest : list string)
    (ir_throttled imu_throttled optical_flow_throttled
       camera_pose_throttled : bool) (sdim : Z)
    (E : env) (tr : list event) :
  primary ∈ arg_choices →
  Forall (.∈ arg_choices) good →
  bad ∉ arg_choices →
  bad ∉ launch_command sdim <$> (primary_ids primary ++ good) →
  __init__ primary (Some (good ++ bad :: rest)) ir_throttled imu_throttled
    optical_flow_throttled camera_pose_throttled sdim E tr
  = ((tr ++ [EvPublisher "/pidrone/state"]) ++ wiring primary,
     Raises (KeyError (KStr bad))).
Proof.
  intros Hp Hgood Hbad Hcmd.
  unfold __init__, rospy_Publisher, emit.
  rewrite !bind_run. cbn [mret M_ret]. rewrite bind_run.
  rewrite start_estimator_subprocess_cmds_wired by done. cbn zeta.
  rewrite bind_run. unfold other_process_cmds. rewrite for_app.
  pose proof (other_process_cmds_known sdim
                (wire primary
                   (attributes primary (Some (good ++ bad :: rest)) sdim
                      "/pidrone/state"))
                good E
                ((tr ++ [EvPublisher "/pidrone/state"]) ++ wiring primary))
    as Hknown.
  unfold other_process_cmds in Hknown. rewrite Hknown; clear Hknown.
  - cbn [for_]. rewrite bind_run, decide_True by done.
    unfold getitem.
    rewrite (lookup_unknown sdim); [done| |done].
    apply has_registry_wire, has_registry_attributes.
  - apply has_registry_wire, has_registry_attributes.
  - done.
  - by apply primary_ids_known.
Qed.

Lemma unknown_other_starts_nothing_witness :
  __init__ "ukf2d" (Some (["ukf7d"] ++ "bogus" :: ["ema"]))
    false false false false 1 quiet []
  = (([] ++ [EvPublisher "/pidrone/state"]) ++ wiring "ukf2d",
     Raises (KeyError (KStr "bogus"))).
Proof.
  apply (unknown_other_starts_nothing "ukf2d" ["ukf7d"] "bogus" ["ema"]
           false false false false 1 quiet []).
  - apply list_elem_of_In. cbn. tauto.
  - apply Forall_singleton, list_elem_of_In. cbn. tauto.
  - intros Hin. apply list_elem_of_In in Hin. cbn in Hin.
    intuition congruence.
  - intros Hin. apply list_elem_of_In in Hin. vm_compute in Hin.
    intuition congruence.
Defined.

(** X3: with ids of [arg_choices], the constructor makes the
    subscriptions of [topology] for its primary estimator, whatever the
    other arguments are and whether or not a later call raises. *)
Theorem subscriptions_follow_primary (args : Namespace.t) (E : env) :
  known args →
  subscriptions (run (main args) E).1 = topology (Namespace.primary args).
Proof.
  intros [Hp Ho].
  destruct (main_extends_construct args E) as (evs & -> & Hevs).
  apply shutdown_events_are_silent in Hevs as (_ & Hs & _).
  destruct (construct_known args E Hp Ho) as (tr & -> & _ & Hsub & _).
  by rewrite subscriptions_app, Hs, app_nil_r.
Qed.

Lemma subscriptions_follow_primary_witness :
  subscriptions
    (run (main (Namespace.mk "ukf2d" (Some ["simulator"])
                  false false false false 3)) init_node_interrupted).1
  = [("/pidrone/state/ema", Method_ema_helper_callback);
     ("/pidrone/state/ukf_2d", Method_state_callback)].
Proof.
  apply (subscriptions_follow_primary
           (Namespace.mk "ukf2d" (Some ["simulator"])
              false false false false 3) init_node_interrupted).
  split.
  - apply list_elem_of_In. cbn. tauto.
  - apply Forall_singleton, list_elem_of_In. cbn. tauto.
Defined.

(** X4: when the constructor returns on ids of [arg_choices], the tracked
    processes are the commands of [launch_commands] in order, one per
    entry of [others] (an id that is already there is launched again),
    under the handles 0, 1, 2, ... *)
Theorem known_ids_launch_in_order (args : Namespace.t) (E : env)
    (tr : list event) (se : StateEstimator) :
  known args →
  run (construct args) E = (tr, Returns se) →
  (processes se).*1 = launch_commands args
  ∧ (processes se).*2 = seq 0 (length (launch_commands args))
  ∧ launched tr = processes se.
Proof.
  intros [Hp Ho] Hrun.
  destruct (construct_known args E Hp Ho) as (tr' & Hrun' & Hl & _).
  rewrite Hrun in Hrun'. fold (launch_commands args) in Hrun', Hl.
  pose proof (launch_until_failure_none E (launch_commands args) 0) as Hnone.
  destruct (launch_until_failure E 0 (launch_commands args)) as [started [e|]];
    [done|].
  cbn in Hrun', Hl, Hnone. rewrite Hnone in * by done.
  destruct (init_node_raises E); [done|]. destruct (spin_raises E); [done|].
  injection Hrun' as <- ->. cbn.
  rewrite fst_zip, snd_zip by (rewrite length_seq; lia). done.
Qed.

Lemma known_ids_launch_in_order_witness :
  (processes
     (set_processes
        [("python StateEstimators/state_estimator_ema.py", 0%nat);
         ("python StateEstimators/state_estimator_ema.py", 1%nat);
         ("rosrun pidrone_pkg drone_simulator.py --dim 2", 2%nat)]
        (attributes "ema" (Some ["ema"; "simulator"]) 2 "/pidrone/state"))).*1
  = launch_commands
      (Namespace.mk "ema" (Some ["ema"; "simulator"]) false false false false 2)
  ∧ (processes
       (set_processes
          [("python StateEstimators/state_estimator_ema.py", 0%nat);
           ("python StateEstimators/state_estimator_ema.py", 1%nat);
           ("rosrun pidrone_pkg drone_simulator.py --dim 2", 2%nat)]
          (attributes "ema" (Some ["ema"; "simulator"]) 2 "/pidrone/state"))).*2
    = seq 0 (length (launch_commands
                       (Namespace.mk "ema" (Some ["ema"; "simulator"])
                          false false false false 2)))
  ∧ launched
      (run (construct (Namespace.mk "ema" (Some ["ema"; "simulator"])
                         false false false false 2)) quiet).1
    = processes
        (set_processes
           [("python StateEstimators/state_estimator_ema.py", 0%nat);
            ("python StateEstimators/state_estimator_ema.py", 1%nat);
            ("rosrun pidrone_pkg drone_simulator.py --dim 2", 2%nat)]
           (attributes "ema" (Some ["ema"; "simulator"]) 2 "/pidrone/state")).
Proof.
  apply (known_ids_launch_in_order
           (Namespace.mk "ema" (Some ["ema"; "simulator"])
              false false false false 2) quiet).
  - split.
    + apply list_elem_of_In. cbn. tauto.
    + repeat constructor; apply list_elem_of_In; cbn; tauto.
  - vm_compute. reflexivity.
Defined.

(** X5: when the constructor raises, with whatever exception and for
    whatever arguments, [main] prints it if it is an [Exception], prints
    the first line of the [finally] block and ends with the
    [UnboundLocalError] on [se]: what was launched stays launched, and
    [terminate] is never called. *)
Theorem constructor_error_leaks_launched_processes
    (args : Namespace.t) (E : env) (tr1 : list event) (e : exn) :
  run (construct args) E = (tr1, Raises e) →
  run (main args) E
  = ((if is_Exception e then tr1 ++ [EvPrint (str_exn e)] else tr1)
       ++ [EvPrint "Terminating subprocess calls..."],
     Raises unbound_se)
  ∧ launched (run (main args) E).1 = launched tr1
  ∧ terminate_attempts (run (main args) E).1 = [].
Proof.
  intros Hc.
  pose proof (main_constructor_raises args E [] tr1 e Hc) as Hmain.
  change (main args E []) with (run (main args) E) in Hmain.
  destruct (constructor_error_skips_shutdown args E tr1 e Hc)
    as (tr2 & Hrun & Hl & Ha).
  rewrite Hmain in Hrun |- *. injection Hrun as <-. done.
Qed.

Lemma constructor_error_leaks_launched_processes_witness :
  run (main ukf2d_args) spin_interrupted
  = ((run (construct ukf2d_args) spin_interrupted).1
       ++ [EvPrint "Terminating subprocess calls..."],
     Raises unbound_se)
  ∧ launched (run (main ukf2d_args) spin_interrupted).1
    = launched (run (construct ukf2d_args) spin_interrupted).1
  ∧ terminate_attempts (run (main ukf2d_args) spin_interrupted).1 = [].
Proof.
  apply (constructor_error_leaks_launched_processes ukf2d_args
           spin_interrupted _ KeyboardInterrupt).
  vm_compute. reflexivity.
Defined.

(** X6: on ids of [arg_choices], when the [k]-th [Popen] is the first to
    raise, the launch loop stops there: the [k] commands before it are
    running, the commands after it are never started, and [main] ends in
    the [finally] block without a single [terminate]. *)
Theorem failed_launch_stops_the_rest (args : Namespace.t) (E : env)
    (k : nat) (e : exn) :
  known args →
  (k < length (launch_commands args))%nat →
  (∀ i, (i < k)%nat → Popen_raises E i = None) →
  Popen_raises E k = Some e →
  ∃ tr,
    run (main args) E = (tr, Raises unbound_se)
    ∧ launched tr = zip (take k (launch_commands args)) (seq 0 k)
    ∧ terminate_attempts tr = [].
Proof.
  intros [Hp Ho] Hk Hok He.
  destruct (construct_known args E Hp Ho) as (tr1 & Hrun & Hl & _).
  fold (launch_commands args) in Hrun, Hl.
  rewrite (launch_until_failure_fails E (launch_commands args) e 0 k)
    in Hrun, Hl by done.
  cbn [fst snd] in Hrun, Hl.
  destruct (constructor_error_skips_shutdown args E tr1 e Hrun)
    as (tr2 & Hmain & Hl2 & Ha).
  exists tr2. by rewrite Hl2, Hl.
Qed.

Lemma failed_launch_stops_the_rest_witness :
  ∃ tr,
    run (main (Namespace.mk "ukf2d" (Some ["ukf7d"]) false false false false 1))
      second_Popen_fails
    = (tr, Raises unbound_se)
    ∧ launched tr
      = zip (take 1 (launch_commands
                       (Namespace.mk "ukf2d" (Some ["ukf7d"])
                          false false false false 1))) (seq 0 1)
    ∧ terminate_attempts tr = [].
Proof.
  apply (failed_launch_stops_the_rest
           (Namespace.mk "ukf2d" (Some ["ukf7d"]) false false false false 1)
           second_Popen_fails 1
           (OSError "[Errno 11] Resource temporarily unavailable")).
  - split.
    + apply list_elem_of_In. cbn. tauto.
    + repeat constructor; apply list_elem_of_In; cbn; tauto.
  - vm_compute. lia.
  - intros i Hi. assert (i = 0%nat) as -> by lia. reflexivity.
  - reflexivity.
Defined.

(** X7: on ids of [arg_choices], when no outside call raises, [main]
    returns, having launched the commands of [launch_commands] in order
    and called [terminate] once on each of the processes, in launch
    order. *)
Theorem quiet_run_launches_and_terminates_all (args : Namespace.t) (E : env) :
  known args →
  (∀ n, Popen_raises E n = None) →
  init_node_raises E = None →
  spin_raises E = None →
  (∀ p, terminate_raises E p = None) →
  ∃ tr,
    run (main args) E = (tr, Returns ())
    ∧ (launched tr).*1 = launch_commands args
    ∧ terminate_attempts tr = (launched tr).*2
    ∧ terminate_attempts tr = seq 0 (length (launch_commands args)).
Proof.
  intros [Hp Ho] HPopen Hinit Hspin Hterm.
  destruct (construct_known args E Hp Ho) as (tr1 & Hrun & _).
  fold (launch_commands args) in Hrun.
  rewrite launch_until_failure_ok, Hinit, Hspin in Hrun by auto.
  cbn [fst snd] in Hrun.
  destruct (known_ids_launch_in_order args E tr1 _ (conj Hp Ho) Hrun)
    as (Hcmds & Hhandles & _).
  destruct (main_shutdown args E tr1 _ Hrun) as (tr2 & Hmain & Hl & _ & Ha).
  rewrite until_failure_none in Hmain, Ha by auto.
  exists tr2. by rewrite Ha, Hl, Hcmds, Hhandles.
Qed.

Lemma quiet_run_launches_and_terminates_all_witness :
  ∃ tr,
    run (main (Namespace.mk "simulator" (Some ["ukf2d"])
                 false true false false 3)) quiet
    = (tr, Returns ())
    ∧ (launched tr).*1
      = launch_commands (Namespace.mk "simulator" (Some ["ukf2d"])
                           false true false false 3)
    ∧ terminate_attempts tr = (launched tr).*2
    ∧ terminate_attempts tr
      = seq 0 (length (launch_commands
                         (Namespace.mk "simulator" (Some ["ukf2d"])
                            false true false false 3))).
Proof.
  apply (quiet_run_launches_and_terminates_all
           (Namespace.mk "simulator" (Some ["ukf2d"])
              false true false false 3) quiet);
    try reflexivity.
  split.
  - apply list_elem_of_In. cbn. tauto.
  - repeat constructor; apply list_elem_of_In; cbn; tauto.
Defined.

(** X8: whatever the arguments and whatever the outside calls do, [main]
    calls [terminate] only on processes it has launched, in launch
    order from the first one on, and on none of them twice. *)
Theorem terminate_only_what_was_launched (args : Namespace.t) (E : env) :
  terminate_attempts (run (main args) E).1
    `prefix_of` (launched (run (main args) E).1).*2
  ∧ NoDup (terminate_attempts (run (main args) E).1).
Proof.
  destruct (run (construct args) E) as [tr1 [se|e]] eqn:Hc.
  - destruct (main_shutdown args E tr1 se Hc) as (tr2 & -> & Hl & Hd & Ha).
    cbn [fst]. rewrite Ha, Hl.
    pose proof (until_failure_prefix E (processes se)) as Hpre.
    split; [done|]. destruct Hpre as [rest Hrest].
    rewrite Hrest in Hd. by apply NoDup_app in Hd as [? _].
  - destruct (constructor_error_skips_shutdown args E tr1 e Hc)
      as (tr2 & -> & _ & Ha).
    cbn [fst]. rewrite Ha. split; [apply prefix_nil|constructor].
Qed.

(** ** Sequences of messages *)

(** One fusion on a coordinator whose cache is where it is needed. *)
Lemma state_callback_wired (self : StateEstimator) (msg : State.t)
    (E : env) (tr : list event) :
  wired self →
  ∃ out,
    state_callback self msg E tr
      = (tr ++ [EvPublish (state_pub self) out],
         Returns (set_state_msg out self))
    ∧ State.header out
      = Header.set_stamp (Time_now E (length tr)) (State.header (state_msg self))
    ∧ State.z out = State.z msg ∧ State.vel_z out = State.vel_z msg
    ∧ State.orientation out = State.orientation msg
    ∧ State.vel_angular out = State.vel_angular msg
    ∧ State.pose_covariance out = State.pose_covariance msg
    ∧ State.twist_covariance out = State.twist_covariance msg.
Proof.
  intros Hw. unfold state_callback, rospy_Time_now, mbind, M_bind. cbn.
  destruct (decide (primary_estimator self = "ukf2d")) as [Hu|_].
  - destruct (Hw Hu) as [cache Hc]. unfold get_ema_state_msg. cbn.
    rewrite Hc. cbn. eexists. split; [reflexivity|]. cbn. tauto.
  - cbn. eexists. split; [reflexivity|]. cbn. tauto.
Qed.

(** X9: the record a fusion hands to [publish] carries the clock's time
    as its stamp, and the header of the incoming message plays no part:
    two messages that differ in their header only give the same run. *)
Theorem fusion_stamps_with_the_clock (self : StateEstimator)
    (msg : State.t) (h : Header.t) (E : env) (tr : list event) :
  wired self →
  state_callback self (State.set_header h msg) E tr
  = state_callback self msg E tr
  ∧ ∃ self' out,
      state_callback self msg E tr
      = (tr ++ [EvPublish (state_pub self) out], Returns self')
      ∧ State.stamp out = Time_now E (length tr).
Proof.
  intros Hw. split; [reflexivity|].
  destruct (state_callback_wired self msg E tr Hw) as (out & Hrun & Hh & _).
  exists (set_state_msg out self), out. split; [done|].
  unfold State.stamp. by rewrite Hh.
Qed.

Lemma fusion_stamps_with_the_clock_witness :
  state_callback ukf2d_coordinator
    (State.set_header (Header.mk 41 (Time.mk 99 0) "camera") ukf_sample)
    quiet [EvSpin (Returns ())]
  = state_callback ukf2d_coordinator ukf_sample quiet [EvSpin (Returns ())]
  ∧ ∃ self' out,
      state_callback ukf2d_coordinator ukf_sample quiet [EvSpin (Returns ())]
      = ([EvSpin (Returns ())] ++ [EvPublish "/pidrone/state" out],
         Returns self')
      ∧ State.stamp out = Time.mk 1 0.
Proof.
  apply (fusion_stamps_with_the_clock ukf2d_coordinator ukf_sample
           (Header.mk 41 (Time.mk 99 0) "camera") quiet
           [EvSpin (Returns ())]).
  intros _. by eexists.
Defined.

(** X10: with a primary estimator other than 'ukf2d', the record
    published is the message with the output record's header, stamped
    with the clock's time: the pose block and the twist block are the
    message's, whole. *)
Theorem direct_output_is_the_message_restamped (self : StateEstimator)
    (msg : State.t) (E : env) (tr : list event) :
  primary_estimator self ≠ "ukf2d" →
  state_callback self msg E tr
  = (tr ++ [EvPublish (state_pub self)
              (State.mk
                 (Header.set_stamp (Time_now E (length tr))
                    (State.header (state_msg self)))
                 (State.pose_with_covariance msg)
                 (State.twist_with_covariance msg))],
     Returns
       (set_state_msg
          (State.mk
             (Header.set_stamp (Time_now E (length tr))
                (State.header (state_msg self)))
             (State.pose_with_covariance msg)
             (State.twist_with_covariance msg)) self)).
Proof.
  intros Hp. unfold state_callback, rospy_Time_now, mbind, M_bind. cbn.
  rewrite decide_False by done. cbn.
  by destruct msg as [h [[[x y z] o] pc] [[[vx vy vz] a] tc]].
Qed.

Lemma direct_output_is_the_message_restamped_witness :
  state_callback ema_coordinator ukf_sample quiet []
  = ([] ++ [EvPublish "/pidrone/state"
              (State.mk (Header.mk 0 (Time.mk 0 0) "")
                 (State.pose_with_covariance ukf_sample)
                 (State.twist_with_covariance ukf_sample))],
     Returns
       (set_state_msg
          (State.mk (Header.mk 0 (Time.mk 0 0) "")
             (State.pose_with_covariance ukf_sample)
             (State.twist_with_covariance ukf_sample)) ema_coordinator)).
Proof.
  apply (direct_output_is_the_message_restamped ema_coordinator ukf_sample
           quiet []).
  discriminate.
Defined.

(** X11: every primary message handled is published once, in order of
    arrival: after [msgs] the trace has grown by exactly one [publish]
    per message, each on the coordinator's publisher and carrying that
    message's z, vel_z and covariance blocks; no fusion raises. *)
Theorem each_primary_message_is_published_once (msgs : list State.t)
    (self : StateEstimator) (E : env) (tr : list event) :
  wired self →
  ∃ outs self',
    for_ msgs state_callback self E tr
      = (tr ++ (EvPublish (state_pub self) <$> outs), Returns self')
    ∧ wired self'
    ∧ Forall2 (λ msg out,
                 State.z out = State.z msg
                 ∧ State.vel_z out = State.vel_z msg
                 ∧ State.pose_covariance out = State.pose_covariance msg
                 ∧ State.twist_covariance out = State.twist_covariance msg)
        msgs outs.
Proof.
  revert self tr.
  induction msgs as [|msg msgs IH]; intros self tr Hw; cbn [for_].
  - exists [], self. cbn. by rewrite app_nil_r.
  - destruct (state_callback_wired self msg E tr Hw)
      as (out & Hrun & _ & Hz & Hvz & _ & _ & Hpc & Htc).
    rewrite bind_run, Hrun.
    destruct (IH (set_state_msg out self)
                (tr ++ [EvPublish (state_pub self) out]))
      as (outs & self' & Hfor & Hw' & Hall); [done|].
    exists (out :: outs), self'. rewrite Hfor. cbn.
    rewrite <-app_assoc. split; [done|]. split; [done|].
    by constructor.
Qed.

Lemma each_primary_message_is_published_once_witness :
  ∃ outs self',
    for_ [ukf_sample; ema_sample] state_callback ukf2d_coordinator quiet []
      = ([] ++ (EvPublish "/pidrone/state" <$> outs), Returns self')
    ∧ wired self'
    ∧ Forall2 (λ msg out,
                 State.z out = State.z msg
                 ∧ State.vel_z out = State.vel_z msg
                 ∧ State.pose_covariance out = State.pose_covariance msg
                 ∧ State.twist_covariance out = State.twist_covariance msg)
        [ukf_sample; ema_sample] outs.
Proof.
  apply (each_primary_message_is_published_once [ukf_sample; ema_sample]
           ukf2d_coordinator quiet []).
  intros _. by eexists.
Defined.

(** A run of EMA messages replaces the cache and emits nothing. *)
Lemma ema_messages_run (emas : list State.t) (E : env) (tr : list event) :
  ∀ (self : StateEstimator) (cache : State.t),
    ema_state_msg self = Some cache →
    ∃ cache',
      for_ emas ema_helper_callback self E tr
      = (tr, Returns (set_ema_state_msg cache' self)).
Proof.
  induction emas as [|m emas IH]; intros self cache Hc; cbn [for_].
  - exists cache. cbn. f_equal. f_equal. destruct self; cbn in *. by subst.
  - rewrite bind_run, (ema_helper_callback_updates E tr self m cache Hc).
    set (cache1 := State.set_vel_y _ _).
    destruct (IH (set_ema_state_msg cache1 self) cache1 eq_refl)
      as [cache' Hrun].
    exists cache'. by rewrite Hrun.
Qed.

(** X12: under 'ukf2d' the cache holds the latest EMA message only:
    after any run of EMA messages, the next fusion publishes the x, y,
    vel_x and vel_y of the last of them, whatever came before. *)
Theorem latest_ema_message_wins (self : StateEstimator)
    (earlier : list State.t) (latest msg : State.t)
    (E : env) (tr : list event) :
  primary_estimator self = "ukf2d" →
  is_Some (ema_state_msg self) →
  ∃ self1 out,
    for_ (earlier ++ [latest]) ema_helper_callback self E tr
      = (tr, Returns self1)
    ∧ state_callback self1 msg E tr
      = (tr ++ [EvPublish (state_pub self) out],
         Returns (set_state_msg out self1))
    ∧ State.x out = State.x latest ∧ State.y out = State.y latest
    ∧ State.vel_x out = State.vel_x latest
    ∧ State.vel_y out = State.vel_y latest.
Proof.
  intros Hu [cache Hc].
  destruct (ema_messages_run earlier E tr self cache Hc) as [cache1 Hrun1].
  pose proof (ema_helper_callback_updates E tr
                (set_ema_state_msg cache1 self) latest cache1 eq_refl) as Hlast.
  set (cache2 := State.set_vel_y _ _) in Hlast.
  destruct (state_callback_publishes E tr
              (set_ema_state_msg cache2 self) msg cache2)
    as (out & Hrun & _ & Hxy & _).
  { by rewrite decide_True. }
  exists (set_ema_state_msg cache2 self), out.
  split; [|split; [done|]].
  - rewrite for_app, Hrun1. cbn [for_]. by rewrite bind_run, Hlast.
  - destruct Hxy as (-> & -> & -> & ->). by cbn.
Qed.

Lemma latest_ema_message_wins_witness :
  ∃ self1 out,
    for_ ([ukf_sample; State.new] ++ [ema_sample]) ema_helper_callback
      ukf2d_coordinator quiet []
      = ([], Returns self1)
    ∧ state_callback self1 ukf_sample quiet []
      = ([] ++ [EvPublish "/pidrone/state" out],
         Returns (set_state_msg out self1))
    ∧ State.x out = 1%float ∧ State.y out = 2%float
    ∧ State.vel_x out = 3%float
    ∧ State.vel_y out = 4%float.
Proof.
  apply (latest_ema_message_wins ukf2d_coordinator [ukf_sample; State.new]
           ema_sample ukf_sample quiet []).
  - reflexivity.
  - by eexists.
Defined.

(** ** The throttle arguments *)

(** C10: two runs of [main] that differ only in the four throttle
    arguments are the same run: the same calls in the same order with the
    same results, hence the same launched commands. Whatever was
    requested, [append_throttle_flags] on the coordinator that either run
    constructs appends to a command every flag the estimator supports,
    in order; and with ids of [arg_choices] the processes launched are
    those of the launch plan, each command with its supported flags, up
    to the first [Popen] that raises. *)
Theorem launch_independent_of_throttle_arguments
    (primary : string) (others : option (list string)) (sdim : Z)
    (ir imu optical_flow camera_pose : bool)
    (ir' imu' optical_flow' camera_pose' : bool) (E : env) :
  run (main (Namespace.mk primary others ir imu optical_flow camera_pose
               sdim)) E
  = run (main (Namespace.mk primary others ir' imu' optical_flow'
                 camera_pose' sdim)) E
  ∧ (launched
       (run (main (Namespace.mk primary others ir imu optical_flow
                     camera_pose sdim)) E).1).*1
    = (launched
         (run (main (Namespace.mk primary others ir' imu' optical_flow'
                       camera_pose' sdim)) E).1).*1
  ∧ (∀ cmd estimator,
       append_throttle_flags
         (attributes primary others sdim "/pidrone/state") cmd estimator
       = foldl (λ cmd flag, cmd +:+ flag) cmd (supported_flags estimator))
  ∧ (primary ∈ arg_choices →
     Forall (.∈ arg_choices) (default [] others) →
     launched
       (run (main (Namespace.mk primary others ir imu optical_flow
                     camera_pose sdim)) E).1
     = (launch_until_failure E 0
          (launch_command sdim <$> (primary_ids primary ++ default [] others))).1).
Proof.
  split; [reflexivity|]. split; [reflexivity|]. split.
  - intros cmd estimator. unfold append_throttle_flags, supported_flags.
    cbn [can_use_throttled_ir can_use_throttled_imu
         can_use_throttled_optical_flow can_use_throttled_camera_pose
         attributes].
    by repeat case_decide.
  - intros Hp Ho.
    destruct (main_extends_construct
                (Namespace.mk primary others ir imu optical_flow camera_pose
                   sdim) E) as (evs & -> & Hevs).
    apply shutdown_events_are_silent in Hevs as (Hl & _).
    destruct (construct_known
                (Namespace.mk primary others ir imu optical_flow camera_pose
                   sdim) E Hp Ho) as (tr & -> & Hstarted & _).
    by rewrite launched_app, Hl, app_nil_r.
Qed.

Lemma launch_independent_of_throttle_arguments_witness :
  launched
    (run (main (Namespace.mk "ukf7d" (Some ["ukf2d"])
                  false false false false 1)) quiet).1
  = [("python StateEstimators/student_state_estimator_ukf_7d.py --ir_throttled --imu_throttled --optical_flow_throttled --camera_pose_throttled", 0%nat);
     ("python StateEstimators/student_state_estimator_ukf_2d.py --ir_throttled --imu_throttled", 1%nat)].
Proof.
  destruct (launch_independent_of_throttle_arguments
              "ukf7d" (Some ["ukf2d"]) 1 false false false false
              true true true true quiet) as (_ & _ & _ & Hplan).
  rewrite Hplan; [reflexivity| |].
  - apply list_elem_of_In. cbn. tauto.
  - apply Forall_singleton, list_elem_of_In. cbn. tauto.
Defined.
